(** * go-simple-request: the request builder and its execute pipeline

    A shallow embedding of package [request] (the fluent builder [Request],
    its materialiser [Request()] and its executor [Execute()]) together with
    the properties of the builder that its specification states.

    Go values with identity (builders, header maps, the backing arrays of
    [[]string] slices, the caller's objects, transport clients) live in a
    store and are referred to by address, so that aliasing between a builder
    and the copies derived from it is visible.  The libraries the package
    calls (net/url, net/http, net/textproto, encoding/json, go-querystring,
    the runtime's slice growth) are the fields of the class [GoLibs]; the
    general theorems hold for every implementation of them. *)

From Stdlib Require Import Ascii String.
From stdpp Require Import gmap strings list fin_maps sorting pretty.

Open Scope string_scope.
Set Warnings "-register-all".

(** ** Go data *)

Abbreviation addr := nat.
Definition error := string.          (* an error, by its Error() text *)
Definition bytes := string.          (* a []byte *)

(** A Go value as the caller hands it over in an [interface{}]. *)
Inductive value :=
| VBool (b : bool)
| VInt (z : Z)
| VString (s : string)
| VStruct (ty : string) (fields : list (string * value))
| VSlice (elems : list value)
| VPtr (a : addr).

(** [interface{}]: nil, or a dynamic value. *)
Definition iface := option value.

(** A [[]string]: pointer to the backing array, length and capacity. *)
Record slice := mkSlice { s_arr : addr; s_len : nat; s_cap : nat }.

Definition nil_slice : slice := mkSlice 0 0 0.

(** net/url.URL, the components the package reads or writes. *)
Record URL := mkURL {
  Scheme : string;
  Host : string;
  Path : string;
  RawQuery : string;
  Fragment : string
}.

Definition set_RawQuery (q : string) (u : URL) : URL :=
  mkURL (Scheme u) (Host u) (Path u) q (Fragment u).

(** http.Header and url.Values as values: key to list of values. *)
Abbreviation Header := (gmap string (list string)).
Abbreviation Values := (gmap string (list string)).

(** A response body stream: the bytes it holds and the error, if any, that
    reading them to the end runs into. *)
Record ReadCloser := mkBody { stream_data : bytes; stream_err : option error }.

Definition ioutil_ReadAll (b : ReadCloser) : bytes + error :=
  match stream_err b with
  | Some e => inr e
  | None => inl (stream_data b)
  end.

(** *http.Request and *http.Response. *)
Record http_Request := mkReq {
  Req_Method : string;
  Req_URL : URL;
  Req_Header : Header;
  Req_Body : option bytes
}.

Record http_Response := mkResp {
  Resp_StatusCode : Z;
  Resp_Header : Header;
  Resp_Body : ReadCloser
}.

(** The implementations of interface [httpClient]: the standard client with
    its timeout (in nanoseconds), or one supplied by the caller. *)
Inductive httpClient :=
| http_Client (Timeout : Z)
| custom_client (id : nat).

Definition time_Second : Z := 1000000000.

(** type Request struct *)
Module Request.
Record t := mk {
  client : option addr;      (* httpClient, nil or a client object *)
  method : string;
  url : string;
  header : option addr;      (* http.Header: nil or a map object *)
  query : iface;
  body : iface;
  Success : iface;
  Failure : iface
}.
End Request.

(** type Response struct *)
Module Response.
Record t := mk {
  StatusCode : Z;
  Header : gmap string (list string);
  Success : iface;
  Failure : iface
}.
End Response.

(** ** The store *)

Record St := mkSt {
  builders : list Request.t;                 (* the *Request objects *)
  hmaps : list (gmap string slice);          (* the http.Header maps *)
  arrays : list (list string);               (* backing arrays of []string *)
  objs : list value;                         (* the caller's objects *)
  clients : list httpClient;                 (* transport clients *)
  sent : list (addr * option http_Request)   (* requests given to a client *)
}.

Definition empty_St : St := mkSt [] [] [] [] [] [].

(** ** Computations: state, and Go's run-time panics *)

Inductive outcome (A : Type) :=
| Ret (a : A)
| Panic (msg : string).
Arguments Ret {A} a.
Arguments Panic {A} msg.

Definition M (A : Type) : Type := St → outcome A * St.

#[global] Instance M_ret : MRet M := λ A a s, (Ret a, s).
#[global] Instance M_bind : MBind M := λ A B f m s,
  match m s with
  | (Ret a, s') => f a s'
  | (Panic msg, s') => (Panic msg, s')
  end.

Definition panic {A} (msg : string) : M A := λ s, (Panic msg, s).
Definition get_St : M St := λ s, (Ret s, s).

Definition nil_deref : string :=
  "invalid memory address or nil pointer dereference".

(** *r for a builder pointer. *)
Definition loadB (r : addr) : M Request.t := λ s,
  match builders s !! r with
  | Some b => (Ret b, s)
  | None => (Panic nil_deref, s)
  end.

Definition storeB (r : addr) (b : Request.t) : M unit := λ s,
  (Ret (), mkSt (<[r:=b]> (builders s)) (hmaps s) (arrays s) (objs s)
                (clients s) (sent s)).

Definition allocB (b : Request.t) : M addr := λ s,
  (Ret (length (builders s)),
   mkSt (builders s ++ [b]) (hmaps s) (arrays s) (objs s) (clients s) (sent s)).

(** make(http.Header) *)
Definition allocH (m : gmap string slice) : M addr := λ s,
  (Ret (length (hmaps s)),
   mkSt (builders s) (hmaps s ++ [m]) (arrays s) (objs s) (clients s) (sent s)).

(** Reading a map; a nil map reads as empty. *)
Definition loadH (h : option addr) : M (gmap string slice) := λ s,
  match h with
  | None => (Ret ∅, s)
  | Some a => (Ret (default ∅ (hmaps s !! a)), s)
  end.

(** h[key] = v; assignment to an entry of a nil map panics. *)
Definition mapassign (h : option addr) (key : string) (v : slice) : M unit := λ s,
  match h with
  | None => (Panic "assignment to entry in nil map", s)
  | Some a =>
      (Ret (), mkSt (builders s)
                    (<[a := <[key:=v]> (default ∅ (hmaps s !! a))]> (hmaps s))
                    (arrays s) (objs s) (clients s) (sent s))
  end.

Definition allocA (l : list string) : M addr := λ s,
  (Ret (length (arrays s)),
   mkSt (builders s) (hmaps s) (arrays s ++ [l]) (objs s) (clients s) (sent s)).

Definition writeA (a : addr) (i : nat) (v : string) : M unit := λ s,
  (Ret (), mkSt (builders s) (hmaps s)
                (<[a := <[i:=v]> (default [] (arrays s !! a))]> (arrays s))
                (objs s) (clients s) (sent s)).

Definition allocC (c : httpClient) : M addr := λ s,
  (Ret (length (clients s)),
   mkSt (builders s) (hmaps s) (arrays s) (objs s) (clients s ++ [c]) (sent s)).

(** The client behind an interface value; calling a method of a nil
    interface panics. *)
Definition loadC (c : option addr) : M (addr * httpClient) := λ s,
  match c with
  | None => (Panic nil_deref, s)
  | Some a =>
      match clients s !! a with
      | Some impl => (Ret (a, impl), s)
      | None => (Panic nil_deref, s)
      end
  end.

Definition put_objs (o : list value) : M unit := λ s,
  (Ret (), mkSt (builders s) (hmaps s) (arrays s) o (clients s) (sent s)).

Definition log_sent (c : addr) (req : option http_Request) : M unit := λ s,
  (Ret (), mkSt (builders s) (hmaps s) (arrays s) (objs s) (clients s)
                (sent s ++ [(c, req)])).

(** The elements of a slice: the first [s_len] cells of its array. *)
Definition slice_elems (s : St) (sl : slice) : list string :=
  take (s_len sl) (default [] (arrays s !! s_arr sl)).

(** What a header map holds, as a reader of the map sees it. *)
Definition header_content (s : St) (h : option addr) : Header :=
  match h with
  | None => ∅
  | Some a => slice_elems s <$> default ∅ (hmaps s !! a)
  end.

(** ** The libraries the package calls *)

Class GoLibs := {
  (** net/url: Parse and (URL).String *)
  url_Parse : string → URL + error;
  URL_String : URL → string;
  (** net/textproto: the canonical form of a header key *)
  CanonicalMIMEHeaderKey : string → string;
  (** runtime: the capacity [append] gives the array it allocates when a
      slice of the given capacity is full *)
  growcap : nat → nat;
  (** encoding/json, reading and writing the caller's objects *)
  json_Marshal : list value → iface → bytes + error;
  json_Unmarshal : bytes → iface → list value → list value * iface * option error;
  (** go-querystring: query.Values, and (url.Values).Encode *)
  query_Values : list value → iface → Values + error;
  Values_Encode : Values → string;
  (** net/http: NewRequest, and the Do of each client *)
  http_NewRequest : string → string → option bytes → http_Request + error;
  client_Do : httpClient → option http_Request → http_Response + error
}.

(** The result pair of a library call that returns a pointer and an error. *)
Definition pair_of {A} (r : A + error) : option A * option error :=
  match r with
  | inl a => (Some a, None)
  | inr e => (None, Some e)
  end.

Section Package.
Context {L : GoLibs}.

(** append(s, v) on a []string: in place when there is room, which writes
    into the array every slice over it shares; into a new array otherwise. *)
Definition append (sl : slice) (v : string) : M slice :=
  if decide (s_len sl < s_cap sl) then
    writeA (s_arr sl) (s_len sl) v;;
    mret (mkSlice (s_arr sl) (S (s_len sl)) (s_cap sl))
  else
    s ← get_St;
    let newcap := growcap (s_cap sl) in
    a ← allocA (slice_elems s sl ++ v :: replicate (newcap - S (s_len sl)) "");
    mret (mkSlice a (S (s_len sl)) newcap).

(** (http.Header).Add: h[key] = append(h[key], value) under the canonical key *)
Definition Header_Add (h : option addr) (key value : string) : M unit :=
  let key := CanonicalMIMEHeaderKey key in
  m ← loadH h;
  sl ← append (default nil_slice (m !! key)) value;
  mapassign h key sl.

(** (http.Header).Set: h[key] = []string{value} under the canonical key *)
Definition Header_Set (h : option addr) (key value : string) : M unit :=
  let key := CanonicalMIMEHeaderKey key in
  a ← allocA [value];
  mapassign h key (mkSlice a 1 1).

(** func New() *Request *)
Definition New : M addr :=
  c ← allocC (http_Client (time_Second * 3));
  h ← allocH ∅;
  allocB (Request.mk (Some c) "GET" "" (Some h) None None None None).

(** func (r *Request) New() *Request *)
Definition Request_New (r : addr) : M addr :=
  headers ← allocH ∅;
  b ← loadB r;
  src ← loadH (Request.header b);
  (* for key, value := range r.header { headers[key] = value } *)
  map_fold (λ key value (k : M unit), k;; mapassign (Some headers) key value)
           (mret ()) src;;
  allocB (Request.mk (Request.client b) (Request.method b) (Request.url b)
                     (Some headers) (Request.query b) (Request.body b)
                     (Request.Success b) (Request.Failure b)).

Definition SetSuccess (r : addr) (success : iface) : M addr :=
  b ← loadB r;
  storeB r (Request.mk (Request.client b) (Request.method b) (Request.url b)
                       (Request.header b) (Request.query b) (Request.body b)
                       success (Request.Failure b));;
  mret r.

Definition SetFailure (r : addr) (failure : iface) : M addr :=
  b ← loadB r;
  storeB r (Request.mk (Request.client b) (Request.method b) (Request.url b)
                       (Request.header b) (Request.query b) (Request.body b)
                       (Request.Success b) failure);;
  mret r.

Definition SetHeader (r : addr) (key value : string) : M addr :=
  b ← loadB r;
  Header_Set (Request.header b) key value;;
  mret r.

Definition AddHeader (r : addr) (key value : string) : M addr :=
  b ← loadB r;
  Header_Add (Request.header b) key value;;
  mret r.

Definition SetQuery (r : addr) (query : iface) : M addr :=
  b ← loadB r;
  storeB r (Request.mk (Request.client b) (Request.method b) (Request.url b)
                       (Request.header b) query (Request.body b)
                       (Request.Success b) (Request.Failure b));;
  mret r.

Definition SetBody (r : addr) (body : iface) : M addr :=
  b ← loadB r;
  storeB r (Request.mk (Request.client b) (Request.method b) (Request.url b)
                       (Request.header b) (Request.query b) body
                       (Request.Success b) (Request.Failure b));;
  mret r.

(** r.method = verb *)
Definition set_method (r : addr) (verb : string) : M unit :=
  b ← loadB r;
  storeB r (Request.mk (Request.client b) verb (Request.url b)
                       (Request.header b) (Request.query b) (Request.body b)
                       (Request.Success b) (Request.Failure b)).

Definition setURL (r : addr) (address : string) : M addr :=
  match url_Parse address with
  | inl path =>
      b ← loadB r;
      storeB r (Request.mk (Request.client b) (Request.method b)
                           (URL_String path)
                           (Request.header b) (Request.query b) (Request.body b)
                           (Request.Success b) (Request.Failure b));;
      mret r
  | inr _ => mret r
  end.

Definition Get (r : addr) (url : string) : M addr :=
  set_method r "GET";; setURL r url.

Definition Post (r : addr) (url : string) : M addr :=
  set_method r "POST";; setURL r url.

Definition Put (r : addr) (url : string) : M addr :=
  set_method r "PUT";; setURL r url.

Definition Head (r : addr) (url : string) : M addr :=
  set_method r "HEAD";; setURL r url.

Definition Delete (r : addr) (url : string) : M addr :=
  set_method r "DELETE";; setURL r url.

Definition Patch (r : addr) (url : string) : M addr :=
  set_method r "PATCH";; setURL r url.

(** The part of Request() after the if/else on r.body: [req] and [err] are
    the variables declared at the top of the function. *)
Definition Request_query (b : Request.t) (req : option http_Request)
    (err : option error) : M (option http_Request * option error) :=
  match err with
  | Some e => mret (None, Some e)
  | None =>
      s ← get_St;
      (* v, err := query.Values(r.query); if err == nil { ... } *)
      match query_Values (objs s) (Request.query b) with
      | inl v =>
          match req with
          | None => panic nil_deref
          | Some rq =>
              mret (Some (mkReq (Req_Method rq)
                                (set_RawQuery (Values_Encode v) (Req_URL rq))
                                (Req_Header rq) (Req_Body rq)), None)
          end
      | inr _ => mret (req, None)
      end
  end.

(** func (r *Request) Request(), returning the request and an error.  In
    the branch for a body, [body, err := json.Marshal(r.body)] declares a
    second err for that block, and it is that one the call of http.NewRequest
    assigns; the err of the function keeps its nil. *)
Definition Request_Request (r : addr) : M (option http_Request * option error) :=
  b ← loadB r;
  s ← get_St;
  match Request.body b with
  | Some _ =>
      match json_Marshal (objs s) (Request.body b) with
      | inr err => mret (None, Some err)
      | inl body =>
          let '(req, _) :=
            pair_of (http_NewRequest (Request.method b) (Request.url b) (Some body)) in
          Request_query b req None
      end
  | None =>
      let '(req, err) :=
        pair_of (http_NewRequest (Request.method b) (Request.url b) None) in
      Request_query b req err
  end.

Definition in_2xx (status : Z) : bool :=
  (200 <=? status)%Z && (status <=? 299)%Z.

(** json.Unmarshal(body, &slot) for an interface slot holding [target]:
    the caller's objects and the slot as the decoder leaves them, and its
    error. *)
Definition unmarshal (body : bytes) (target : iface) : M (iface * option error) :=
  s ← get_St;
  let '(o, slot, err) := json_Unmarshal body target (objs s) in
  put_objs o;;
  mret (slot, err).

Definition decodeResp (r : addr) (resp : Response.t) (body : bytes)
    : M (Response.t * option error) :=
  let status := Response.StatusCode resp in
  b ← loadB r;
  if in_2xx status then
    match Request.Success b with
    | Some _ =>
        '(slot, err) ← unmarshal body (Request.Success b);
        mret (Response.mk (Response.StatusCode resp) (Response.Header resp)
                          slot (Response.Failure resp), err)
    | None => mret (resp, None)
    end
  else
    match Request.Failure b with
    | Some _ =>
        '(slot, err) ← unmarshal body (Request.Failure b);
        mret (Response.mk (Response.StatusCode resp) (Response.Header resp)
                          (Response.Success resp) slot, err)
    | None => mret (resp, None)
    end.

Definition decode_prefix : string := "failed to decode API response: ".

Definition do (r : addr) (req : option http_Request)
    : M (option Response.t * option error) :=
  b ← loadB r;
  '(c, impl) ← loadC (Request.client b);
  log_sent c req;;
  match client_Do impl req with
  | inr err => mret (None, Some err)
  | inl resp =>
      let response :=
        Response.mk (Resp_StatusCode resp) (Resp_Header resp) None None in
      match ioutil_ReadAll (Resp_Body resp) with
      | inr err => mret (None, Some err)
      | inl bodyBytes =>
          '(response, err) ← decodeResp r response bodyBytes;
          match err with
          | Some e => mret (Some response, Some (decode_prefix ++ e))
          | None => mret (Some response, None)
          end
      end
  end.

Definition sendRequest (r : addr) : M (option Response.t * option error) :=
  '(req, err) ← Request_Request r;
  match err with
  | Some e => mret (None, Some e)
  | None => do r req
  end.

Definition Execute (r : addr) : M (option Response.t * option error) :=
  sendRequest r.

(** The URL a method setter stores: the argument parsed and printed again,
    or the old one when it does not parse. *)
Definition stored_url (address old : string) : string :=
  match url_Parse address with
  | inl path => URL_String path
  | inr _ => old
  end.

End Package.

(** ** A reference implementation of the libraries

    [GoStd] gives the fields of [GoLibs] the behaviour of the Go libraries on
    the inputs the examples below use: URLs of the form
    scheme://host/path?query#fragment (or a bare path), header keys, flat
    structs of booleans, integers and strings, the mock clients and the JSON
    documents of the package's tests. *)
Module GoStd.

Definition code (c : ascii) : nat := nat_of_ascii c.

(** A string between double quotes, as [%q] prints it. *)
Definition quoted (s : string) : string :=
  String (ascii_of_nat 34) s +:+ String (ascii_of_nat 34) EmptyString.

Definition is_lower (c : ascii) : bool := (97 <=? code c)%nat && (code c <=? 122)%nat.
Definition is_upper (c : ascii) : bool := (65 <=? code c)%nat && (code c <=? 90)%nat.
Definition is_digit (c : ascii) : bool := (48 <=? code c)%nat && (code c <=? 57)%nat.
Definition is_alnum (c : ascii) : bool := is_lower c || is_upper c || is_digit c.

Definition to_upper (c : ascii) : ascii :=
  if is_lower c then ascii_of_nat (code c - 32) else c.
Definition to_lower (c : ascii) : ascii :=
  if is_upper c then ascii_of_nat (code c + 32) else c.

Fixpoint forall_chars (p : ascii → bool) (s : string) : bool :=
  match s with
  | EmptyString => true
  | String c s' => p c && forall_chars p s'
  end.

Fixpoint map_chars (f : ascii → ascii) (s : string) : string :=
  match s with
  | EmptyString => EmptyString
  | String c s' => String (f c) (map_chars f s')
  end.

Definition mem_chars (c : ascii) (set : string) : bool :=
  negb (forall_chars (λ d, negb (Ascii.eqb c d)) set).

(** The text before the first [c], and the text after it if there is one. *)
Fixpoint cut (c : ascii) (s : string) : string * option string :=
  match s with
  | EmptyString => (EmptyString, None)
  | String a s' =>
      if Ascii.eqb a c then (EmptyString, Some s')
      else let '(p, r) := cut c s' in (String a p, r)
  end.

(** *** net/url *)

Definition is_ctl (c : ascii) : bool := (code c <? 32)%nat || (code c =? 127)%nat.

Definition is_scheme_char (c : ascii) : bool :=
  is_alnum c || mem_chars c "+-.".

Definition valid_scheme (s : string) : bool :=
  match s with
  | EmptyString => false
  | String c _ => (is_lower c || is_upper c) && forall_chars is_scheme_char s
  end.

Definition Parse (rawURL : string) : URL + error :=
  let '(u, frag) := cut "#" rawURL in
  if negb (forall_chars (λ c, negb (is_ctl c)) u) then
    inr ("parse " +:+ quoted rawURL +:+ ": net/url: invalid control character in URL")
  else
    let '(rest, q) := cut "?" u in
    let '(scheme, rest) :=
      match cut ":" rest with
      | (pre, Some post) =>
          if valid_scheme pre then (map_chars to_lower pre, post) else ("", rest)
      | _ => ("", rest)
      end in
    let '(host, path) :=
      match rest with
      | String "/" (String "/" auth) =>
          match cut "/" auth with
          | (h, Some p) => (h, String "/" p)
          | (h, None) => (h, "")
          end
      | _ => ("", rest)
      end in
    inl (mkURL scheme host path (default "" q) (default "" frag)).

Definition URL_to_string (u : URL) : string :=
  (if decide (Scheme u = "") then "" else Scheme u +:+ ":")
  +:+ (if decide (Host u = "") then "" else "//" +:+ Host u)
  +:+ Path u
  +:+ (if decide (RawQuery u = "") then "" else "?" +:+ RawQuery u)
  +:+ (if decide (Fragment u = "") then "" else "#" +:+ Fragment u).

(** *** net/textproto *)

(** The bytes of an HTTP token. *)
Definition validHeaderFieldByte (c : ascii) : bool :=
  is_alnum c || mem_chars c "!#$%&'*+-.^_`|~".

(** First letter and the letter after each dash in upper case, the other
    letters in lower case. *)
Fixpoint canonical (upper : bool) (s : string) : string :=
  match s with
  | EmptyString => EmptyString
  | String c s' =>
      let c' := if upper then to_upper c else to_lower c in
      String c' (canonical (Ascii.eqb c' "-") s')
  end.

Definition CanonicalKey (s : string) : string :=
  if forall_chars validHeaderFieldByte s then canonical true s else s.

(** *** runtime: growth of a full slice of strings, before the rounding to
    an allocation size class (which leaves capacities up to 256 as they
    are) *)
Definition nextslicecap (oldCap : nat) : nat :=
  if decide (oldCap = 0) then 1
  else if decide (oldCap < 256) then 2 * oldCap
  else oldCap + (oldCap + 768) / 4.

(** *** net/http *)

Definition validMethod (m : string) : bool :=
  negb (String.eqb m "") && forall_chars validHeaderFieldByte m.

Definition NewRequest (method url : string) (body : option bytes)
    : http_Request + error :=
  let method := if String.eqb method "" then "GET" else method in
  if negb (validMethod method) then
    inr ("net/http: invalid method " +:+ quoted method)
  else
    match Parse url with
    | inr e => inr e
    | inl u => inl (mkReq method u ∅ body)
    end.

(** *** reflection: the value behind a chain of pointers, if none is nil *)
Fixpoint indirect (fuel : nat) (objs : list value) (v : value) : option value :=
  match v with
  | VPtr a =>
      match fuel with
      | 0 => None
      | S n => objs !! a ≫= indirect n objs
      end
  | _ => Some v
  end.

Definition kind (v : value) : string :=
  match v with
  | VBool _ => "bool"
  | VInt _ => "int"
  | VString _ => "string"
  | VStruct _ _ => "struct"
  | VSlice _ => "slice"
  | VPtr _ => "ptr"
  end.

Definition join (sep : string) (l : list string) : string :=
  match l with
  | [] => ""
  | x :: l' => foldl (λ acc y, acc +:+ sep +:+ y) x l'
  end.

(** *** go-querystring and url.Values *)

Definition scalar_text (v : value) : option string :=
  match v with
  | VBool b => Some (if b then "true" else "false")
  | VInt z => Some (pretty z)
  | VString s => Some s
  | _ => None
  end.

Definition field_values (v : value) : list string :=
  match v with
  | VSlice l => omap scalar_text l
  | _ => option_list (scalar_text v)
  end.

(** (url.Values).Add for a list of values *)
Definition Values_Add (m : Values) (k : string) (vs : list string) : Values :=
  match vs with
  | [] => m
  | _ => <[k := (default [] (m !! k) ++ vs)%list]> m
  end.

(** query.Values: empty for nil and for a nil pointer, an error for what is
    not a struct, and for a struct the values of its fields under their
    [url] names. *)
Definition query_Values_of (objs : list value) (v : iface) : Values + error :=
  match v with
  | None => inl ∅
  | Some v =>
      match indirect (S (length objs)) objs v with
      | None => inl ∅
      | Some (VStruct _ fields) =>
          inl (foldl (λ m '(k, x), Values_Add m k (field_values x)) ∅ fields)
      | Some x => inr ("query: Values() expects struct input. Got " +:+ kind x)
      end
  end.

Definition hex_digit (n : nat) : ascii :=
  if (n <? 10)%nat then ascii_of_nat (48 + n) else ascii_of_nat (55 + n).

Definition escape_char (c : ascii) : string :=
  if is_alnum c || mem_chars c "-_.~" then String c ""
  else if Ascii.eqb c " " then "+"
  else String "%" (String (hex_digit (code c / 16))
                          (String (hex_digit (code c mod 16)) "")).

Fixpoint QueryEscape (s : string) : string :=
  match s with
  | EmptyString => EmptyString
  | String c s' => escape_char c +:+ QueryEscape s'
  end.

Definition key_le (x y : string * list string) : Prop :=
  Is_true (String.leb x.1 y.1).

#[local] Instance key_le_dec x y : Decision (key_le x y).
Proof. unfold key_le. apply _. Defined.

(** (url.Values).Encode: key=value pairs, sorted by key, joined by & *)
Definition Encode (v : Values) : string :=
  join "&"
    (flat_map (λ '(k, vs), (λ x, QueryEscape k +:+ "=" +:+ QueryEscape x) <$> vs)
              (merge_sort key_le (map_to_list v))).

(** *** encoding/json, for objects whose members are booleans, integers and
    strings without escapes *)

Definition json_scalar (v : value) : option string :=
  match v with
  | VBool b => Some (if b then "true" else "false")
  | VInt z => Some (pretty z)
  | VString s => Some (quoted s)
  | _ => None
  end.

Definition Marshal (objs : list value) (v : iface) : bytes + error :=
  match v ≫= indirect (S (length objs)) objs with
  | None => inl "null"
  | Some (VStruct _ fields) =>
      inl ("{" +:+ join "," (omap (λ '(k, x), (λ t, quoted k +:+ ":" +:+ t) <$> json_scalar x)
                                  fields) +:+ "}")
  | Some (VSlice l) => inl ("[" +:+ join "," (omap json_scalar l) +:+ "]")
  | Some x => inl (default "null" (json_scalar x))
  end.

Inductive pstate :=
| PStart                         (* before the opening brace *)
| PFirst                         (* after it: a key or the closing brace *)
| PKey                           (* after a comma: a key *)
| PInKey (k : string)
| PColon (k : string)
| PValue (k : string)
| PInStr (k acc : string)
| PInAtom (k acc : string)       (* a number or a literal *)
| PNext                          (* after a value: comma or closing brace *)
| PDone
| PFail.

Definition is_space (c : ascii) : bool := mem_chars c " " || (code c =? 9)%nat
  || (code c =? 10)%nat || (code c =? 13)%nat.

Fixpoint digits_value (acc : Z) (s : string) : option Z :=
  match s with
  | EmptyString => Some acc
  | String c s' =>
      if is_digit c then digits_value (10 * acc + Z.of_nat (code c - 48))%Z s'
      else None
  end.

(** A number or a literal; [Some None] is null. *)
Definition atom_value (a : string) : option (option value) :=
  match a with
  | "true" => Some (Some (VBool true))
  | "false" => Some (Some (VBool false))
  | "null" => Some None
  | String "-" (String c d) => (λ z, Some (VInt (- z))) <$> digits_value 0 (String c d)
  | String c d => (λ z, Some (VInt z)) <$> digits_value 0 (String c d)
  | EmptyString => None
  end.

Definition add_member (k : string) (v : option value)
    (ms : list (string * value)) : list (string * value) :=
  match v with
  | Some x => (ms ++ [(k, x)])%list
  | None => ms
  end.

Definition dquote : ascii := ascii_of_nat 34.

Definition pstep (st : pstate * list (string * value)) (c : ascii)
    : pstate * list (string * value) :=
  let '(p, ms) := st in
  match p with
  | PStart => if is_space c then st else if Ascii.eqb c "{" then (PFirst, ms) else (PFail, ms)
  | PFirst =>
      if is_space c then st
      else if Ascii.eqb c "}" then (PDone, ms)
      else if Ascii.eqb c dquote then (PInKey "", ms) else (PFail, ms)
  | PKey =>
      if is_space c then st
      else if Ascii.eqb c dquote then (PInKey "", ms) else (PFail, ms)
  | PInKey k =>
      if Ascii.eqb c dquote then (PColon k, ms) else (PInKey (k +:+ String c ""), ms)
  | PColon k =>
      if is_space c then st else if Ascii.eqb c ":" then (PValue k, ms) else (PFail, ms)
  | PValue k =>
      if is_space c then st
      else if Ascii.eqb c dquote then (PInStr k "", ms)
      else if is_alnum c || Ascii.eqb c "-" then (PInAtom k (String c ""), ms)
      else (PFail, ms)
  | PInStr k acc =>
      if Ascii.eqb c dquote then (PNext, add_member k (Some (VString acc)) ms)
      else (PInStr k (acc +:+ String c ""), ms)
  | PInAtom k acc =>
      if is_alnum c then (PInAtom k (acc +:+ String c ""), ms)
      else
        match atom_value acc with
        | None => (PFail, ms)
        | Some v =>
            if is_space c then (PNext, add_member k v ms)
            else if Ascii.eqb c "," then (PKey, add_member k v ms)
            else if Ascii.eqb c "}" then (PDone, add_member k v ms)
            else (PFail, ms)
        end
  | PNext =>
      if is_space c then st
      else if Ascii.eqb c "," then (PKey, ms)
      else if Ascii.eqb c "}" then (PDone, ms) else (PFail, ms)
  | PDone => if is_space c then st else (PFail, ms)
  | PFail => st
  end.

Fixpoint prun (st : pstate * list (string * value)) (s : string)
    : pstate * list (string * value) :=
  match s with
  | EmptyString => st
  | String c s' => prun (pstep st c) s'
  end.

(** The members of a JSON object, in the order of the text. *)
Definition parse_object (doc : bytes) : option (list (string * value)) :=
  match prun (PStart, []) doc with
  | (PDone, ms) => Some ms
  | _ => None
  end.

Definition same_key (k k' : string) : bool :=
  String.eqb (map_chars to_lower k) (map_chars to_lower k').

(** The last member whose key is that of the field, letter case aside. *)
Definition member_for (k : string) (ms : list (string * value)) : option value :=
  snd <$> last (filter (λ m, Is_true (same_key k m.1)) ms).

Definition type_error (v : value) (k : string) (old : value) : error :=
  "json: cannot unmarshal " +:+ kind v +:+ " into Go struct field " +:+ k
  +:+ " of type " +:+ kind old.

(** Decoding into the fields of a struct: a member of the field's kind
    replaces it, one of another kind is reported and the field is kept. *)
Fixpoint decode_fields (ms : list (string * value)) (fs : list (string * value))
    : list (string * value) * option error :=
  match fs with
  | [] => ([], None)
  | (k, old) :: fs' =>
      let '(rest, err) := decode_fields ms fs' in
      match member_for k ms with
      | None => ((k, old) :: rest, err)
      | Some v =>
          if String.eqb (kind v) (kind old) then ((k, v) :: rest, err)
          else ((k, old) :: rest, Some (type_error v k old))
      end
  end.

(** json.Unmarshal(body, &slot).  The text is checked before anything is
    written.  A slot holding a pointer is decoded through it; any other slot
    is replaced by the decoded object. *)
Definition Unmarshal (body : bytes) (slot : iface) (objs : list value)
    : list value * iface * option error :=
  match parse_object body with
  | None => (objs, slot, Some "invalid character in JSON text")
  | Some ms =>
      match slot with
      | Some (VPtr a) =>
          match objs !! a with
          | Some (VStruct ty fs) =>
              let '(fs', err) := decode_fields ms fs in
              (<[a := VStruct ty fs']> objs, slot, err)
          | Some x =>
              (objs, slot,
               Some ("json: cannot unmarshal object into Go value of type " +:+ kind x))
          | None => (objs, Some (VStruct "map[string]interface {}" ms), None)
          end
      | _ => (objs, Some (VStruct "map[string]interface {}" ms), None)
      end
  end.

(** *** transports: the mock clients of the tests, a handler that answers
    every request with a status, a body and headers *)

Definition test_document : bytes :=
  "{" +:+ quoted "id" +:+ ":200, " +:+ quoted "name" +:+ ":" +:+ quoted "John" +:+ "}".

Definition fakeHandlers : list (Z * bytes * Header) :=
  [ (200%Z, test_document, ∅);
    (400%Z, test_document, ∅);
    (200%Z, "not json", ∅);
    (404%Z, "not json", {[ "Content-Type" := ["text/plain"] ]}) ].

(** The standard client has no network to reach here; the mock clients
    answer whatever the request. *)
Definition Do (c : httpClient) (req : option http_Request) : http_Response + error :=
  match c with
  | http_Client _ => inr "dial tcp: network is unreachable"
  | custom_client id =>
      match fakeHandlers !! id with
      | Some (status, doc, hdr) => inl (mkResp status hdr (mkBody doc None))
      | None => inr "dial tcp: connection refused"
      end
  end.

#[export] Instance libs : GoLibs := {|
  url_Parse := Parse;
  URL_String := URL_to_string;
  CanonicalMIMEHeaderKey := CanonicalKey;
  growcap := nextslicecap;
  json_Marshal := Marshal;
  json_Unmarshal := Unmarshal;
  query_Values := query_Values_of;
  Values_Encode := Encode;
  http_NewRequest := NewRequest;
  client_Do := Do
|}.

End GoStd.

(** ** Properties that hold for every implementation of the libraries *)

(** The builder with another method and URL, all else as it was. *)
Definition with_method_url (verb url : string) (b : Request.t) : Request.t :=
  Request.mk (Request.client b) verb url (Request.header b) (Request.query b)
             (Request.body b) (Request.Success b) (Request.Failure b).

(** The store with builder [r] replaced. *)
Definition with_builder (r : addr) (b : Request.t) (s : St) : St :=
  mkSt (<[r:=b]> (builders s)) (hmaps s) (arrays s) (objs s) (clients s) (sent s).

(** Everything a builder consists of: the builder objects, the header maps
    and arrays behind them, and the clients. *)
Definition same_builders (s s' : St) : Prop :=
  builders s' = builders s ∧ hmaps s' = hmaps s ∧ arrays s' = arrays s
  ∧ clients s' = clients s.

(** The map a header field refers to. *)
Definition header_map (s : St) (h : option addr) : gmap string slice :=
  match h with
  | None => ∅
  | Some a => default ∅ (hmaps s !! a)
  end.

(** The status class that selects the decode target. *)
Definition decode_target (b : Request.t) (status : Z) : iface :=
  if in_2xx status then Request.Success b else Request.Failure b.

(** The error of a failed decode as [do] returns it. *)
Definition wrap_decode (err : option error) : option error :=
  (λ e, decode_prefix +:+ e) <$> err.

(** *** Well-formed stores

    What the package keeps true of the header maps it builds: a slice in a
    map has its array in the store, its elements lie within the array, and
    where it has spare capacity the array has those cells; within one map,
    different keys have different arrays; and the header field of a builder
    refers to a map of the store. *)

Definition slice_wf (s : St) (sl : slice) : Prop :=
  ∃ arr, arrays s !! s_arr sl = Some arr
         ∧ (s_len sl ≤ length arr)%nat
         ∧ (s_len sl < s_cap sl → s_cap sl ≤ length arr)%nat.

Definition map_wf (s : St) (m : gmap string slice) : Prop :=
  (∀ k sl, m !! k = Some sl → slice_wf s sl)
  ∧ (∀ k1 k2 sl1 sl2, m !! k1 = Some sl1 → m !! k2 = Some sl2 →
       k1 ≠ k2 → s_arr sl1 ≠ s_arr sl2).

Definition wf_store (s : St) : Prop :=
  (∀ h m, hmaps s !! h = Some m → map_wf s m)
  ∧ (∀ r b h, builders s !! r = Some b → Request.header b = Some h →
       h < length (hmaps s)).

(** Every builder has a header map: its header field is not nil. *)
Definition headers_set (s : St) : Prop :=
  ∀ r b, builders s !! r = Some b → Request.header b ≠ None.

(** The store with other arrays. *)
Definition with_arrays (a : list (list string)) (s : St) : St :=
  mkSt (builders s) (hmaps s) a (objs s) (clients s) (sent s).

(** The store with other header maps. *)
Definition with_hmaps (h : list (gmap string slice)) (s : St) : St :=
  mkSt (builders s) h (arrays s) (objs s) (clients s) (sent s).

(** The values under a key, none when the key is absent. *)
Definition values_of (hdr : Header) (key : string) : list string :=
  default [] (hdr !! key).

(** *** Calls of the exported functions, and programs made of them *)

Inductive call :=
| CallNew
| CallDerive (r : addr)
| CallSetSuccess (r : addr) (v : iface)
| CallSetFailure (r : addr) (v : iface)
| CallSetHeader (r : addr) (key value : string)
| CallAddHeader (r : addr) (key value : string)
| CallSetQuery (r : addr) (v : iface)
| CallSetBody (r : addr) (v : iface)
| CallGet (r : addr) (url : string)
| CallPost (r : addr) (url : string)
| CallPut (r : addr) (url : string)
| CallHead (r : addr) (url : string)
| CallDelete (r : addr) (url : string)
| CallPatch (r : addr) (url : string)
| CallRequest (r : addr)
| CallExecute (r : addr).

Section Calls.
Context {L : GoLibs}.

(** The store a call leaves, whether it returns or panics. *)
Definition after_call (c : call) (s : St) : St :=
  match c with
  | CallNew => (New s).2
  | CallDerive r => (Request_New r s).2
  | CallSetSuccess r v => (SetSuccess r v s).2
  | CallSetFailure r v => (SetFailure r v s).2
  | CallSetHeader r k v => (SetHeader r k v s).2
  | CallAddHeader r k v => (AddHeader r k v s).2
  | CallSetQuery r v => (SetQuery r v s).2
  | CallSetBody r v => (SetBody r v s).2
  | CallGet r u => (Get r u s).2
  | CallPost r u => (Post r u s).2
  | CallPut r u => (Put r u s).2
  | CallHead r u => (Head r u s).2
  | CallDelete r u => (Delete r u s).2
  | CallPatch r u => (Patch r u s).2
  | CallRequest r => (Request_Request r s).2
  | CallExecute r => (Execute r s).2
  end.

Definition after_calls (cs : list call) (s : St) : St :=
  foldl (λ s c, after_call c s) s cs.

(** r.AddHeader(k1, v1).AddHeader(k2, v2)... for a list of keys and values *)
Fixpoint add_headers (r : addr) (kvs : list (string * string)) : M addr :=
  match kvs with
  | [] => mret r
  | (key, value) :: kvs' => r' ← AddHeader r key value; add_headers r' kvs'
  end.

End Calls.

(** ** Scenarios, run with the reference libraries *)
Module Scenario.
#[local] Existing Instance GoStd.libs.

(** The structs of the package's tests, fields under their wire names. *)
Definition fakeQuery (id : Z) (name : string) : value :=
  VStruct "fakeQuery" [("id", VInt id); ("name", VString name)].
Definition fakeSuccess (id : Z) (name : string) : value :=
  VStruct "fakeSuccess" [("ID", VInt id); ("Name", VString name)].

(** New().AddHeader("A", "B").Get("http://example.com") *)
Definition with_header : M addr :=
  r ← New; AddHeader r "A" "B";; Get r "http://example.com".

(** New().Get("http://example.com?a=1"), no query object *)
Definition with_embedded_query : M addr :=
  r ← New; Get r "http://example.com?a=1".

(** A builder made as the tests make theirs, by a struct literal:
    &Request{client: mock, method: "bad method", url: "http://example.com",
    query: ..., body: ...}, in a store with one object and the mock client. *)
Definition bad_method (query body : iface) : St :=
  mkSt [Request.mk (Some 0) "bad method" "http://example.com" None
                   query body None None]
       [] [] [fakeSuccess 10 "Bob"] [custom_client 0] [].

(** r := New().SetSuccess(p).SetFailure(q); r2 := r.New() *)
Definition derived_with_shapes : M (addr * addr) :=
  r ← New; SetSuccess r (Some (VPtr 0));; SetFailure r (Some (VPtr 1));;
  r2 ← Request_New r; mret (r, r2).

(** b1 := New().AddHeader("A","a").AddHeader("A","b").AddHeader("A","c");
    b2 := b1.New() *)
Definition derived_after_three_adds : M (addr * addr) :=
  b1 ← New;
  AddHeader b1 "A" "a";; AddHeader b1 "A" "b";; AddHeader b1 "A" "c";;
  b2 ← Request_New b1; mret (b1, b2).

(** The headers of builder [r]. *)
Definition headers_of (r : addr) (s : St) : Header :=
  match builders s !! r with
  | Some b => header_content s (Request.header b)
  | None => ∅
  end.

(** The headers of the builder a chain of calls ends with, starting from
    the empty store. *)
Definition headers_after (chain : M addr) : outcome Header :=
  ((r ← chain; s ← get_St; mret (headers_of r s)) empty_St).1.

(** A builder over mock client [id] with the given shapes and query, as
    newMockRequest(...).Get("http://example.com") leaves it, and one object
    for the shapes to refer to. *)
Definition mock (id : nat) (query success failure : iface) : St :=
  mkSt [Request.mk (Some 0) "GET" "http://example.com" None
                   query None success failure]
       [] [] [fakeSuccess 0 ""] [custom_client id] [].

Definition example_request : http_Request :=
  mkReq "GET" (mkURL "http" "example.com" "" "" "") ∅ None.

End Scenario.

(** ** Further cases *)

(** The reference libraries with one part replaced, for the failures the
    reference libraries do not produce. *)
Module Doubles.

(** A JSON encoder that rejects the body, as json.Marshal rejects a value
    that holds a channel or a function. *)
Definition no_marshal : GoLibs := {|
  url_Parse := GoStd.Parse;
  URL_String := GoStd.URL_to_string;
  CanonicalMIMEHeaderKey := GoStd.CanonicalKey;
  growcap := GoStd.nextslicecap;
  json_Marshal := λ _ _, inr "json: unsupported type: chan int";
  json_Unmarshal := GoStd.Unmarshal;
  query_Values := GoStd.query_Values_of;
  Values_Encode := GoStd.Encode;
  http_NewRequest := GoStd.NewRequest;
  client_Do := GoStd.Do
|}.

(** A transport whose reply has status 200 and a body that breaks off while
    it is read. *)
Definition broken_body : GoLibs := {|
  url_Parse := GoStd.Parse;
  URL_String := GoStd.URL_to_string;
  CanonicalMIMEHeaderKey := GoStd.CanonicalKey;
  growcap := GoStd.nextslicecap;
  json_Marshal := GoStd.Marshal;
  json_Unmarshal := GoStd.Unmarshal;
  query_Values := GoStd.query_Values_of;
  Values_Encode := GoStd.Encode;
  http_NewRequest := GoStd.NewRequest;
  client_Do := λ _ _, inl (mkResp 200 ∅ (mkBody "{" (Some "unexpected EOF")))
|}.

End Doubles.

Module Cases.
#[local] Existing Instance GoStd.libs.

(** New().AddHeader("A", "B").AddHeader("X-Id", "7") *)
Definition two_headers : St :=
  after_calls [CallNew; CallAddHeader 0 "A" "B"; CallAddHeader 0 "X-Id" "7"]
              empty_St.

(** New().Get("http://example.com") *)
Definition plain_get : St :=
  after_calls [CallNew; CallGet 0 "http://example.com"] empty_St.

(** A URL with a control character in it, which url.Parse rejects. *)
Definition bad_url : string :=
  "http://exa" +:+ String (ascii_of_nat 1) "mple.com".

(** A builder with a body and a query object over a URL that carries a
    query of its own. *)
Definition full_builder : St :=
  mkSt [Request.mk (Some 0) "POST" "http://example.com/p?a=1" None
                   (Some (VPtr 1)) (Some (VPtr 0)) None None]
       [] [] [Scenario.fakeSuccess 10 "Bob"; Scenario.fakeQuery 20 "John"]
       [custom_client 0] [].

(** A builder made by a struct literal that names no client. *)
Definition no_client : St :=
  mkSt [Request.mk None "GET" "http://example.com" None None None None None]
       [] [] [] [] [].

End Cases.

(** ** Shapes that point into a builder

    Success and Failure are exported fields, so a caller can give a builder
    a pointer to the builder itself or to one of these two fields:
    r.SetSuccess(r), r.SetSuccess(&r.Failure).  The store above keeps what
    an interface holds apart from the builders.  Here the two fields are
    kept as shapes, which tell such pointers from the rest, and the decode
    path of the package is given over them: json.Unmarshal can then reach
    the exported fields of a builder, and only those (the other fields are
    not exported, which puts them out of its reach). *)
Module Aliasing.

Inductive field := FSuccess | FFailure.

Inductive shape :=
| Plain (v : iface)                 (* nil, a value, a pointer to an object of the
                                       caller; the objects of [objs] hold values and
                                       pointers to each other, none into a builder *)
| FieldPtr (r : addr) (f : field)   (* &r.Success, &r.Failure *)
| BuilderPtr (r : addr).            (* r itself, a pointer to a builder *)

(** The Success and Failure fields of a builder on which neither was set. *)
Definition unset : shape * shape := (Plain None, Plain None).

(** The store above, and for each builder its Success and Failure fields as
    shapes; the fields of these names in the builder objects of [base] are
    not used. *)
Record store := mkStore { base : St; shapes : gmap nat (shape * shape) }.

(** What encoding/json can reach from a destination: the objects of the
    caller and the exported fields of the builders. *)
Record memory := mkMem { m_objs : list value; m_shapes : gmap nat (shape * shape) }.

(** json.Unmarshal(body, &slot) for a slot that holds a shape: what it
    leaves of the memory and of the slot, and its error.  encoding/json
    writes what its destination reaches through pointers: from a slot that
    holds a plain shape no builder is within reach, and there it is
    json_Unmarshal. *)
Class JsonShapes {L : GoLibs} := {
  json_Unmarshal_into : bytes → shape → memory → memory * shape * option error;
  json_plain : ∀ body v o sh,
    json_Unmarshal_into body (Plain v) (mkMem o sh)
    = (let '(o', slot, err) := json_Unmarshal body v o in
       (mkMem o' sh, Plain slot, err))
}.

(** type Response struct, with shapes *)
Module Response.
Record t := mk {
  StatusCode : Z;
  Header : gmap string (list string);
  Success : shape;
  Failure : shape
}.
End Response.

Section Decode.
Context {L : GoLibs} {J : JsonShapes}.

Definition AM (A : Type) : Type := store → outcome A * store.

#[global] Instance AM_ret : MRet AM := λ A a s, (Ret a, s).
#[global] Instance AM_bind : MBind AM := λ A B f m s,
  match m s with
  | (Ret a, s') => f a s'
  | (Panic msg, s') => (Panic msg, s')
  end.

(** A computation of the first part, run on [base]. *)
Definition lift {A} (m : M A) : AM A := λ s,
  let '(o, st) := m (base s) in (o, mkStore st (shapes s)).

Definition get_shapes (r : addr) : AM (shape * shape) := λ s,
  (Ret (default unset (shapes s !! r)), s).

Definition set_shapes (r : addr) (p : shape * shape) : AM unit := λ s,
  (Ret (), mkStore (base s) (<[r := p]> (shapes s))).

Definition get_store : AM store := λ s, (Ret s, s).

Definition put_shapes (sh : gmap nat (shape * shape)) : AM unit := λ s,
  (Ret (), mkStore (base s) sh).

Definition SetSuccess (r : addr) (success : shape) : AM addr :=
  lift (loadB r);;
  p ← get_shapes r;
  set_shapes r (success, p.2);;
  mret r.

Definition SetFailure (r : addr) (failure : shape) : AM addr :=
  lift (loadB r);;
  p ← get_shapes r;
  set_shapes r (p.1, failure);;
  mret r.

(** Request() reads neither Success nor Failure. *)
Definition Request (r : addr) : AM (option http_Request * option error) :=
  lift (Request_Request r).

(** x == nil *)
Definition is_nil (x : shape) : bool :=
  match x with
  | Plain None => true
  | _ => false
  end.

Definition unmarshal (body : bytes) (target : shape) : AM (shape * option error) :=
  s ← get_store;
  let '(mem, slot, err) :=
    json_Unmarshal_into body target (mkMem (objs (base s)) (shapes s)) in
  lift (put_objs (m_objs mem));;
  put_shapes (m_shapes mem);;
  mret (slot, err).

Definition decodeResp (r : addr) (resp : Response.t) (body : bytes)
    : AM (Response.t * option error) :=
  let status := Response.StatusCode resp in
  lift (loadB r);;
  p ← get_shapes r;
  if in_2xx status then
    if is_nil p.1 then mret (resp, None)
    else
      '(slot, err) ← unmarshal body p.1;
      mret (Response.mk (Response.StatusCode resp) (Response.Header resp)
                        slot (Response.Failure resp), err)
  else
    if is_nil p.2 then mret (resp, None)
    else
      '(slot, err) ← unmarshal body p.2;
      mret (Response.mk (Response.StatusCode resp) (Response.Header resp)
                        (Response.Success resp) slot, err).

Definition do (r : addr) (req : option http_Request)
    : AM (option Response.t * option error) :=
  b ← lift (loadB r);
  '(c, impl) ← lift (loadC (Request.client b));
  lift (log_sent c req);;
  match client_Do impl req with
  | inr err => mret (None, Some err)
  | inl resp =>
      let response :=
        Response.mk (Resp_StatusCode resp) (Resp_Header resp)
                    (Plain None) (Plain None) in
      match ioutil_ReadAll (Resp_Body resp) with
      | inr err => mret (None, Some err)
      | inl bodyBytes =>
          '(response, err) ← decodeResp r response bodyBytes;
          match err with
          | Some e => mret (Some response, Some (decode_prefix +:+ e))
          | None => mret (Some response, None)
          end
      end
  end.

Definition sendRequest (r : addr) : AM (option Response.t * option error) :=
  '(req, err) ← Request r;
  match err with
  | Some e => mret (None, Some e)
  | None => do r req
  end.

Definition Execute (r : addr) : AM (option Response.t * option error) :=
  sendRequest r.

End Decode.

(** *** A reference decoder for shapes, over the reference libraries: flat
    JSON objects, decoded through pointers into builders as encoding/json
    follows them *)

Definition get_field (f : field) (p : shape * shape) : shape :=
  match f with
  | FSuccess => p.1
  | FFailure => p.2
  end.

Definition set_field (f : field) (x : shape) (p : shape * shape) : shape * shape :=
  match f with
  | FSuccess => (x, p.2)
  | FFailure => (p.1, x)
  end.

Definition read_slot (mem : memory) (r : addr) (f : field) : shape :=
  get_field f (default unset (m_shapes mem !! r)).

Definition write_slot (mem : memory) (r : addr) (f : field) (x : shape) : memory :=
  mkMem (m_objs mem)
        (<[r := set_field f x (default unset (m_shapes mem !! r))]> (m_shapes mem)).

Definition same_slot (r : addr) (f : field) (r' : addr) (f' : field) : bool :=
  (r =? r')%nat && match f, f' with
                   | FSuccess, FSuccess | FFailure, FFailure => true
                   | _, _ => false
                   end.

(** The value a JSON object becomes in an empty interface (a number is kept
    as the VInt the reference decoder reads: [value] has no float64). *)
Definition generic (ms : list (string * value)) : value :=
  VStruct "map[string]interface {}" ms.

Definition chain_error : error := "json: pointers into builders form a cycle".

(** The value of a member into the field [f] of builder [r]: through the
    pointers the field holds, to the object or the field they end in. *)
Fixpoint member_into (fuel : nat) (r : addr) (f : field) (v : value)
    (mem : memory) : memory * option error :=
  match read_slot mem r f with
  | Plain (Some (VPtr a)) =>
      match m_objs mem !! a with
      | Some old =>
          if String.eqb (GoStd.kind v) (GoStd.kind old)
          then (mkMem (<[a := v]> (m_objs mem)) (m_shapes mem), None)
          else (mem, Some ("json: cannot unmarshal " +:+ GoStd.kind v
                           +:+ " into Go value of type " +:+ GoStd.kind old))
      | None => (write_slot mem r f (Plain (Some v)), None)
      end
  | Plain _ => (write_slot mem r f (Plain (Some v)), None)
  | FieldPtr r' f' =>
      if same_slot r f r' f' then (write_slot mem r f (Plain (Some v)), None)
      else
        match fuel with
        | 0 => (mem, Some chain_error)
        | S n => member_into n r' f' v mem
        end
  | BuilderPtr _ =>
      (mem, Some ("json: cannot unmarshal " +:+ GoStd.kind v
                  +:+ " into Go value of type request.Request"))
  end.

(** The exported field a member of the document names, letter case aside. *)
Definition field_named (k : string) : option field :=
  if GoStd.same_key k "Success" then Some FSuccess
  else if GoStd.same_key k "Failure" then Some FFailure
  else None.

(** An object into a builder: the members that name an exported field, in
    the order of the document; the first error is kept. *)
Definition struct_into (fuel : nat) (r : addr) (ms : list (string * value))
    (mem : memory) : memory * option error :=
  foldl (λ acc m,
           match field_named m.1 with
           | None => acc
           | Some f =>
               let '(mem', e) := member_into fuel r f m.2 acc.1 in
               (mem', match acc.2 with Some e0 => Some e0 | None => e end)
           end)
        (mem, None) ms.

(** An object into the field [f] of builder [r]. *)
Fixpoint slot_into (fuel : nat) (body : bytes) (ms : list (string * value))
    (r : addr) (f : field) (mem : memory) : memory * option error :=
  match read_slot mem r f with
  | Plain w =>
      let '(o, slot, err) := GoStd.Unmarshal body w (m_objs mem) in
      (write_slot (mkMem o (m_shapes mem)) r f (Plain slot), err)
  | FieldPtr r' f' =>
      if same_slot r f r' f' then (write_slot mem r f (Plain (Some (generic ms))), None)
      else
        match fuel with
        | 0 => (mem, Some chain_error)
        | S n => slot_into n body ms r' f' mem
        end
  | BuilderPtr r' => struct_into fuel r' ms mem
  end.

(** json.Unmarshal(body, &slot) for a slot that holds [target].  The text is
    checked before anything is written; null sets the slot to nil and
    follows no pointer; an object is decoded through the pointer, and the
    slot keeps the pointer. *)
Definition Unmarshal_into (body : bytes) (target : shape) (mem : memory)
    : memory * shape * option error :=
  let fuel := S (2 * size (m_shapes mem)) in
  match target with
  | Plain v =>
      let '(o, slot, err) := GoStd.Unmarshal body v (m_objs mem) in
      (mkMem o (m_shapes mem), Plain slot, err)
  | FieldPtr r f =>
      if String.eqb body "null" then (mem, Plain None, None)
      else
        match GoStd.parse_object body with
        | None => (mem, target, Some "invalid character in JSON text")
        | Some ms =>
            let '(mem', err) := slot_into fuel body ms r f mem in
            (mem', target, err)
        end
  | BuilderPtr r =>
      if String.eqb body "null" then (mem, Plain None, None)
      else
        match GoStd.parse_object body with
        | None => (mem, target, Some "invalid character in JSON text")
        | Some ms =>
            let '(mem', err) := struct_into fuel r ms mem in
            (mem', target, err)
        end
  end.

#[export] Instance reference : JsonShapes (L := GoStd.libs).
Proof.
  refine {| json_Unmarshal_into := Unmarshal_into |}.
  intros body v o sh. unfold Unmarshal_into. cbn.
  by destruct (GoStd.Unmarshal body v o) as [[o' slot] err].
Defined.



End Aliasing.

(** A Response of the first part, its two fields as shapes. *)
Definition plain_response (resp : Response.t) : Aliasing.Response.t :=
  Aliasing.Response.mk (Response.StatusCode resp) (Response.Header resp)
                       (Aliasing.Plain (Response.Success resp))
                       (Aliasing.Plain (Response.Failure resp)).

Definition plain_result (o : outcome (option Response.t * option error))
    : outcome (option Aliasing.Response.t * option error) :=
  match o with
  | Ret (resp, err) => Ret (plain_response <$> resp, err)
  | Panic msg => Panic msg
  end.

Ltac unfold_M :=
  unfold mbind, M_bind, mret, M_ret, panic, get_St, loadB, storeB, allocB,
    allocH, loadH, allocA, writeA, allocC, loadC, put_objs, log_sent in *.

Section Properties.
Context {L : GoLibs}.

Lemma same_builders_refl s : same_builders s s.
Proof. by repeat split. Qed.

Lemma in_2xx_spec status : in_2xx status = true ↔ (200 ≤ status ≤ 299)%Z.
Proof. unfold in_2xx. rewrite andb_true_iff, !Z.leb_le. tauto. Qed.

Lemma in_2xx_false status : in_2xx status = false ↔ ¬ (200 ≤ status ≤ 299)%Z.
Proof. rewrite <- in_2xx_spec. destruct (in_2xx status); split; congruence. Qed.

(** Request() reads the store and leaves it as it is, whatever it returns. *)
Lemma Request_query_state b req err s : (Request_query b req err s).2 = s.
Proof.
  unfold Request_query. unfold_M.
  destruct err; simpl; [done|].
  destruct (query_Values _ _); [destruct req|]; done.
Qed.

Lemma Request_Request_state r s : (Request_Request r s).2 = s.
Proof.
  unfold Request_Request. unfold_M.
  destruct (builders s !! r) as [b|]; cbn -[Request_query]; [|done].
  destruct (Request.body b).
  - destruct (json_Marshal _ _); cbn -[Request_query]; [|done].
    destruct (pair_of _). apply Request_query_state.
  - destruct (pair_of _). apply Request_query_state.
Qed.

Lemma unmarshal_frame body target s : same_builders s (unmarshal body target s).2.
Proof.
  unfold unmarshal. unfold_M.
  destruct (json_Unmarshal _ _ _) as [[o slot] err]. by repeat split.
Qed.

Lemma same_builders_trans s1 s2 s3 :
  same_builders s1 s2 → same_builders s2 s3 → same_builders s1 s3.
Proof. unfold same_builders. intros (?&?&?&?) (?&?&?&?). repeat split; congruence. Qed.

Lemma bind_frame {A B} (m : M A) (f : A → M B) s :
  same_builders s (m s).2 →
  (∀ a s1, same_builders s1 (f a s1).2) →
  same_builders s ((m ≫= f) s).2.
Proof.
  intros Hm Hf. unfold mbind, M_bind.
  destruct (m s) as [[a|msg] s1]; [|exact Hm].
  eapply same_builders_trans; [exact Hm|apply Hf].
Qed.

Lemma loadB_frame r s : same_builders s (loadB r s).2.
Proof. unfold loadB. destruct (builders s !! r); apply same_builders_refl. Qed.

Lemma decodeResp_frame r resp body s : same_builders s (decodeResp r resp body s).2.
Proof.
  unfold decodeResp. apply bind_frame; [apply loadB_frame|].
  intros b s1. destruct (in_2xx _).
  - destruct (Request.Success b); [|apply same_builders_refl].
    apply bind_frame; [apply unmarshal_frame|].
    intros [slot err] s2. apply same_builders_refl.
  - destruct (Request.Failure b); [|apply same_builders_refl].
    apply bind_frame; [apply unmarshal_frame|].
    intros [slot err] s2. apply same_builders_refl.
Qed.

Lemma do_frame r req s : same_builders s (do r req s).2.
Proof.
  unfold do. apply bind_frame; [apply loadB_frame|].
  intros b s1. apply bind_frame.
  { unfold loadC. destruct (Request.client b) as [a|]; [|apply same_builders_refl].
    destruct (clients s1 !! a); apply same_builders_refl. }
  intros [c impl] s2. apply bind_frame; [by repeat split|].
  intros [] s3. destruct (client_Do impl req) as [reply|e]; [|apply same_builders_refl].
  destruct (ioutil_ReadAll _) as [bodyBytes|e]; [|apply same_builders_refl].
  apply bind_frame; [apply decodeResp_frame|].
  intros [response [e|]] s4; apply same_builders_refl.
Qed.

(** In this store, where Success and Failure hold values and references to
    objects of the caller only, Request() and Execute() leave the builder
    objects, the header maps with the arrays that hold their values, and the
    clients as they were, whatever the call returns.  Request() writes
    nothing at all; Execute() writes only the caller's objects, through the
    reference held in Success or Failure, and the record of what was sent.
    Shapes that point into a builder are treated in [Aliasing]. *)
Theorem Request_Execute_frame (r : addr) (s : St) :
  (Request_Request r s).2 = s
  ∧ same_builders s (Execute r s).2
  ∧ builders (Execute r s).2 !! r = builders s !! r
  ∧ (∀ h, header_content (Execute r s).2 h = header_content s h).
Proof.
  assert (same_builders s (Execute r s).2) as HE.
  { unfold Execute, sendRequest. apply bind_frame.
    - rewrite Request_Request_state. apply same_builders_refl.
    - intros [req [e|]] s1; [apply same_builders_refl|apply do_frame]. }
  split; [apply Request_Request_state|]. split; [exact HE|].
  destruct HE as (HB & HH & HA & HC). split; [by rewrite HB|].
  intros h. unfold header_content, slice_elems. rewrite HH.
  destruct h; [|done].
  apply map_fmap_ext. intros k sl _. by rewrite HA.
Qed.

(** What [decodeResp] does, by status class and declared shape. *)
Lemma decodeResp_spec r resp body s b :
  builders s !! r = Some b →
  decodeResp r resp body s =
    match decode_target b (Response.StatusCode resp) with
    | None => (Ret (resp, None), s)
    | Some v =>
        let '(o, slot, err) := json_Unmarshal body (Some v) (objs s) in
        (Ret (if in_2xx (Response.StatusCode resp)
              then Response.mk (Response.StatusCode resp) (Response.Header resp)
                               slot (Response.Failure resp)
              else Response.mk (Response.StatusCode resp) (Response.Header resp)
                               (Response.Success resp) slot, err),
         mkSt (builders s) (hmaps s) (arrays s) o (clients s) (sent s))
    end.
Proof.
  intros Hb. unfold decodeResp, decode_target, unmarshal. unfold_M.
  rewrite Hb. simpl.
  destruct (in_2xx _).
  - destruct (Request.Success b) as [v|]; [|done].
    by destruct (json_Unmarshal _ _ _) as [[o slot] err].
  - destruct (Request.Failure b) as [v|]; [|done].
    by destruct (json_Unmarshal _ _ _) as [[o slot] err].
Qed.

(** [do] once the transport has replied and the body has been read. *)
Lemma do_replied r req s b c impl reply body :
  builders s !! r = Some b →
  Request.client b = Some c →
  clients s !! c = Some impl →
  client_Do impl req = inl reply →
  ioutil_ReadAll (Resp_Body reply) = inl body →
  do r req s =
    let s1 := mkSt (builders s) (hmaps s) (arrays s) (objs s) (clients s)
                   (sent s ++ [(c, req)]) in
    let response := Response.mk (Resp_StatusCode reply) (Resp_Header reply)
                                None None in
    match decodeResp r response body s1 with
    | (Ret (response', err), s2) => (Ret (Some response', wrap_decode err), s2)
    | (Panic msg, s2) => (Panic msg, s2)
    end.
Proof.
  intros Hb Hc Hi Hdo Hread. unfold do. unfold_M.
  rewrite Hb. simpl. rewrite Hc, Hi. simpl. rewrite Hdo, Hread. simpl.
  destruct (decodeResp _ _ _ _) as [[[response' [e|]]|msg] s2]; done.
Qed.

(** C5: for a request that reaches decoding (the transport replied and the
    body was read): with a status in [200,299] and a success shape declared,
    the body is unmarshalled into Response.Success and Response.Failure stays
    unset; with a status outside [200,299] and a failure shape declared, the
    body is unmarshalled into Response.Failure and Response.Success stays
    unset; with no shape declared for the class of the status no decode is
    attempted (the caller's objects are untouched), both slots stay unset and
    the error is nil. *)
Theorem decode_dispatch (r : addr) (req : option http_Request) (s : St)
    (b : Request.t) (c : addr) (impl : httpClient) (reply : http_Response)
    (body : bytes) :
  builders s !! r = Some b →
  Request.client b = Some c →
  clients s !! c = Some impl →
  client_Do impl req = inl reply →
  ioutil_ReadAll (Resp_Body reply) = inl body →
  let status := Resp_StatusCode reply in
  let after o := mkSt (builders s) (hmaps s) (arrays s) o (clients s)
                      (sent s ++ [(c, req)]) in
  (∀ shape o slot err,
     (200 ≤ status ≤ 299)%Z →
     Request.Success b = Some shape →
     json_Unmarshal body (Some shape) (objs s) = (o, slot, err) →
     do r req s =
       (Ret (Some (Response.mk status (Resp_Header reply) slot None),
             wrap_decode err), after o))
  ∧ (∀ shape o slot err,
     ¬ (200 ≤ status ≤ 299)%Z →
     Request.Failure b = Some shape →
     json_Unmarshal body (Some shape) (objs s) = (o, slot, err) →
     do r req s =
       (Ret (Some (Response.mk status (Resp_Header reply) None slot),
             wrap_decode err), after o))
  ∧ (decode_target b status = None →
     do r req s =
       (Ret (Some (Response.mk status (Resp_Header reply) None None), None),
        after (objs s))).
Proof.
  intros Hb Hc Hi Hdo Hread status after.
  rewrite (do_replied r req s b c impl reply body) by done.
  cbv zeta. rewrite (decodeResp_spec _ _ _ _ b) by done.
  unfold decode_target. cbn [Response.StatusCode Response.Header
    Response.Success Response.Failure objs builders hmaps arrays clients sent].
  fold status. repeat split.
  - intros shape o slot err Hst HS HU.
    apply in_2xx_spec in Hst. rewrite Hst, HS, HU. done.
  - intros shape o slot err Hst HF HU.
    apply in_2xx_false in Hst. rewrite Hst, HF, HU. done.
  - intros Hnone. rewrite Hnone. done.
Qed.

(** C6: when the transport replies but unmarshalling the body into the
    declared shape fails, Execute() returns a non-nil error, the unmarshal
    error behind the fixed prefix, together with a non-nil Response whose
    StatusCode and Header are those of the reply. *)
Theorem decode_error_keeps_response (r : addr) (s : St) (b : Request.t)
    (req : option http_Request) (c : addr) (impl : httpClient)
    (reply : http_Response) (body : bytes) (shape : value)
    (o : list value) (slot : iface) (e : error) :
  builders s !! r = Some b →
  Request_Request r s = (Ret (req, None), s) →
  Request.client b = Some c →
  clients s !! c = Some impl →
  client_Do impl req = inl reply →
  ioutil_ReadAll (Resp_Body reply) = inl body →
  decode_target b (Resp_StatusCode reply) = Some shape →
  json_Unmarshal body (Some shape) (objs s) = (o, slot, Some e) →
  ∃ resp s',
    Execute r s = (Ret (Some resp, Some (decode_prefix +:+ e)), s')
    ∧ Response.StatusCode resp = Resp_StatusCode reply
    ∧ Response.Header resp = Resp_Header reply.
Proof.
  intros Hb Hreq Hc Hi Hdo Hread Ht HU.
  unfold Execute, sendRequest. unfold mbind, M_bind. rewrite Hreq.
  rewrite (do_replied r req s b c impl reply body) by done.
  cbv zeta. rewrite (decodeResp_spec _ _ _ _ b) by done.
  cbn [Response.StatusCode Response.Header Response.Success Response.Failure
       objs builders hmaps arrays clients sent].
  rewrite Ht, HU.
  destruct (in_2xx _); eexists _, _; (split; [reflexivity|by split]).
Qed.

(** [do] gives the request to the builder's client. *)
Lemma do_sent r req s b c impl :
  builders s !! r = Some b →
  Request.client b = Some c →
  clients s !! c = Some impl →
  sent (do r req s).2 = (sent s ++ [(c, req)])%list.
Proof.
  intros Hb Hc Hi.
  destruct (client_Do impl req) as [reply|e] eqn:Hdo;
    [destruct (ioutil_ReadAll (Resp_Body reply)) as [body|e] eqn:Hread|].
  - rewrite (do_replied r req s b c impl reply body) by done.
    cbv zeta. rewrite (decodeResp_spec _ _ _ _ b) by done.
    destruct (decode_target _ _); [|done].
    by destruct (json_Unmarshal _ _ _) as [[o slot] err].
  - unfold do. unfold_M. rewrite Hb. simpl. rewrite Hc, Hi. simpl.
    by rewrite Hdo, Hread.
  - unfold do. unfold_M. rewrite Hb. simpl. rewrite Hc, Hi. simpl.
    by rewrite Hdo.
Qed.

(** C8: when the query object of a builder is set and fails to encode, and
    the base request was built (the body, if any, marshalled and
    http.NewRequest succeeded), the encoding error is not surfaced: Request()
    returns the base request, with the query component http.NewRequest gave
    it, and a nil error; Execute() goes on to the transport, which is given
    that request. *)
Theorem query_error_swallowed (r : addr) (s : St) (b : Request.t) (e : error)
    (payload : option bytes) (req0 : http_Request) :
  builders s !! r = Some b →
  Request.query b ≠ None →
  query_Values (objs s) (Request.query b) = inr e →
  (Request.body b = None ∧ payload = None
   ∨ Request.body b ≠ None
     ∧ ∃ bs, json_Marshal (objs s) (Request.body b) = inl bs ∧ payload = Some bs) →
  http_NewRequest (Request.method b) (Request.url b) payload = inl req0 →
  Request_Request r s = (Ret (Some req0, None), s)
  ∧ Execute r s = do r (Some req0) s
  ∧ (∀ c impl, Request.client b = Some c → clients s !! c = Some impl →
       sent (Execute r s).2 = (sent s ++ [(c, Some req0)])%list).
Proof.
  intros Hb _ Hq Hbody Hnew.
  assert (Request_Request r s = (Ret (Some req0, None), s)) as HR.
  { unfold Request_Request, Request_query. unfold_M. rewrite Hb. simpl.
    destruct Hbody as [[Hnil ->]|[Hset (bs & Hm & ->)]].
    - rewrite Hnil, Hnew. simpl. by rewrite Hq.
    - destruct (Request.body b) as [v|]; [|done].
      rewrite Hm, Hnew. simpl. by rewrite Hq. }
  assert (Execute r s = do r (Some req0) s) as HE.
  { unfold Execute, sendRequest. unfold mbind, M_bind. by rewrite HR. }
  repeat split; [done..|].
  intros c impl Hc Hi. rewrite HE. by apply (do_sent _ _ _ b c impl).
Qed.

Lemma set_method_setURL r s b verb address :
  builders s !! r = Some b →
  (set_method r verb;; setURL r address) s =
    (Ret r, with_builder r (with_method_url verb
                              (stored_url address (Request.url b)) b) s).
Proof.
  intros Hb. pose proof (lookup_lt_Some _ _ _ Hb) as Hlt.
  unfold set_method, setURL, stored_url, with_builder, with_method_url.
  unfold_M. rewrite Hb. simpl.
  destruct (url_Parse address) as [path|e]; simpl; [|done].
  rewrite list_lookup_insert_eq by done. simpl.
  by rewrite list_insert_insert_eq.
Qed.

(** C9, as the code has it: each of Get, Post, Put, Patch, Delete and Head
    sets the method field to its verb and the url field to the normalised
    form of its argument (the url stays as it was when the argument does not
    parse); no other field of the builder, no other builder and nothing else
    in the store changes. *)
Theorem method_setters (r : addr) (s : St) (b : Request.t) (address : string) :
  builders s !! r = Some b →
  let set verb :=
    (Ret r, with_builder r (with_method_url verb
                              (stored_url address (Request.url b)) b) s) in
  Get r address s = set "GET"
  ∧ Post r address s = set "POST"
  ∧ Put r address s = set "PUT"
  ∧ Patch r address s = set "PATCH"
  ∧ Delete r address s = set "DELETE"
  ∧ Head r address s = set "HEAD".
Proof.
  intros Hb set. unfold Get, Post, Put, Patch, Delete, Head, set.
  repeat split; by apply set_method_setURL.
Qed.

(** The copy loop of New(): every entry of the source map is assigned to
    the new map, slice header by slice header. *)
Lemma copy_loop (h : addr) (src : gmap string slice) :
  ∀ s m0, hmaps s !! h = Some m0 →
  map_fold (λ key value (k : M unit), k;; mapassign (Some h) key value)
           (mret ()) src s
  = (Ret (), mkSt (builders s) (<[h := src ∪ m0]> (hmaps s)) (arrays s)
                  (objs s) (clients s) (sent s)).
Proof.
  apply (map_fold_weak_ind
    (λ (acc : M unit) (m : gmap string slice),
       ∀ s m0, hmaps s !! h = Some m0 →
         acc s = (Ret (), mkSt (builders s) (<[h := m ∪ m0]> (hmaps s))
                               (arrays s) (objs s) (clients s) (sent s)))).
  - intros s m0 Hh. rewrite (left_id_L ∅ (∪)), list_insert_id by done.
    by destruct s.
  - intros i x m acc Hi IH s m0 Hh.
    pose proof (lookup_lt_Some _ _ _ Hh) as Hlt.
    unfold mbind, M_bind. rewrite (IH s m0 Hh). unfold mapassign. simpl.
    rewrite list_lookup_insert_eq by done. simpl.
    by rewrite list_insert_insert_eq, insert_union_l.
Qed.

Lemma header_map_alloc s h :
  header_map (mkSt (builders s) (hmaps s ++ [∅]) (arrays s) (objs s)
                   (clients s) (sent s)) h
  = header_map s h.
Proof.
  unfold header_map. destruct h as [a|]; [|done]. cbn [hmaps].
  destruct (decide (a < length (hmaps s))) as [Hlt|Hge].
  - by rewrite lookup_app_l.
  - rewrite (lookup_ge_None_2 (hmaps s) a) by lia.
    destruct (decide (a = length (hmaps s))) as [->|Hne].
    + by rewrite list_lookup_middle.
    + rewrite lookup_ge_None_2; [done|]. rewrite length_app. simpl. lia.
Qed.

Lemma loadH_header_map h s : loadH h s = (Ret (header_map s h), s).
Proof. by destruct h. Qed.

(** New() on a builder: a new builder object and a new map object; the new
    map holds the slice headers of the source map, and the other fields hold
    what the source's fields hold. *)
Lemma Request_New_spec r s b :
  builders s !! r = Some b →
  Request_New r s =
    (Ret (length (builders s)),
     mkSt (builders s ++
             [Request.mk (Request.client b) (Request.method b) (Request.url b)
                         (Some (length (hmaps s))) (Request.query b)
                         (Request.body b) (Request.Success b) (Request.Failure b)])
          (hmaps s ++ [header_map s (Request.header b)])
          (arrays s) (objs s) (clients s) (sent s)).
Proof.
  intros Hb. unfold Request_New.
  unfold mbind at 1, M_bind at 1. unfold allocH at 1.
  unfold mbind at 1, M_bind at 1. unfold loadB at 1. cbn [builders]. rewrite Hb.
  unfold mbind at 1, M_bind at 1. rewrite loadH_header_map, header_map_alloc.
  unfold mbind at 1, M_bind at 1.
  rewrite (copy_loop (length (hmaps s)) _ _ ∅)
    by (cbn [hmaps]; by apply list_lookup_middle).
  unfold allocB. cbn [builders hmaps arrays objs clients sent].
  rewrite (right_id_L ∅ (∪)).
  rewrite insert_app_r_alt by done. by rewrite Nat.sub_diag.
Qed.

(** X7: What New() on a builder gives: another builder, with another header
    map of the same content, the same client, and the source left as it
    was. *)
Lemma Request_New_derived r s b :
  builders s !! r = Some b →
  (∀ a, Request.header b = Some a → a < length (hmaps s)) →
  ∃ r2 s' b2,
    Request_New r s = (Ret r2, s')
    ∧ r2 ≠ r
    ∧ builders s' !! r = Some b
    ∧ builders s' !! r2 = Some b2
    ∧ Request.header b2 ≠ Request.header b
    ∧ header_content s' (Request.header b2) = header_content s (Request.header b)
    ∧ header_content s' (Request.header b) = header_content s (Request.header b)
    ∧ Request.client b2 = Request.client b.
Proof.
  intros Hb Hvalid. pose proof (lookup_lt_Some _ _ _ Hb) as Hlt.
  eexists _, _, _. split; [by apply Request_New_spec|].
  cbn [builders hmaps arrays].
  split; [lia|].
  split; [by rewrite lookup_app_l|].
  split; [by rewrite list_lookup_middle|].
  cbn [Request.header Request.client].
  split.
  { destruct (Request.header b) as [a|]; [|done].
    specialize (Hvalid a eq_refl). intros [= Heq]. lia. }
  split.
  { unfold header_content, slice_elems. cbn [hmaps arrays].
    rewrite list_lookup_middle by done. unfold header_map. simpl.
    destruct (Request.header b); [done|]. by rewrite fmap_empty. }
  split; [|done].
  unfold header_content, slice_elems. cbn [hmaps arrays].
  destruct (Request.header b) as [a|]; [|done].
  by rewrite lookup_app_l by (by apply Hvalid).
Qed.

(** The request Request() returns has the headers http.NewRequest gave it:
    nothing of the builder's header map reaches it. *)
Lemma Request_header_of_NewRequest r s b req err s' :
  builders s !! r = Some b →
  Request_Request r s = (Ret (Some req, err), s') →
  ∃ payload req0,
    http_NewRequest (Request.method b) (Request.url b) payload = inl req0
    ∧ Req_Header req = Req_Header req0
    ∧ Req_Method req = Req_Method req0
    ∧ Req_Body req = Req_Body req0.
Proof.
  intros Hb. unfold Request_Request, Request_query. unfold_M. rewrite Hb. simpl.
  destruct (Request.body b).
  - destruct (json_Marshal _ _) as [bs|e]; simpl; [|done].
    destruct (http_NewRequest _ _ (Some bs)) as [req0|e] eqn:Hn; simpl.
    + destruct (query_Values _ _); intros [= <- <- <-]; eauto 10.
    + destruct (query_Values _ _); done.
  - destruct (http_NewRequest _ _ None) as [req0|e] eqn:Hn; simpl; [|done].
    destruct (query_Values _ _); intros [= <- <- <-]; eauto 10.
Qed.

(** X11: When the query object encodes, Request() overwrites the query component
    of the request with its encoding, whatever the stored URL carried. *)
Lemma Request_query_overwrites r s b v payload req0 :
  builders s !! r = Some b →
  query_Values (objs s) (Request.query b) = inl v →
  (Request.body b = None ∧ payload = None
   ∨ Request.body b ≠ None
     ∧ ∃ bs, json_Marshal (objs s) (Request.body b) = inl bs ∧ payload = Some bs) →
  http_NewRequest (Request.method b) (Request.url b) payload = inl req0 →
  Request_Request r s =
    (Ret (Some (mkReq (Req_Method req0)
                      (set_RawQuery (Values_Encode v) (Req_URL req0))
                      (Req_Header req0) (Req_Body req0)), None), s).
Proof.
  intros Hb Hq Hbody Hnew.
  unfold Request_Request, Request_query. unfold_M. rewrite Hb. simpl.
  destruct Hbody as [[Hnil ->]|[Hset (bs & Hm & ->)]].
  - rewrite Hnil, Hnew. simpl. by rewrite Hq.
  - destruct (Request.body b) as [x|]; [|done].
    rewrite Hm, Hnew. simpl. by rewrite Hq.
Qed.

(** A failing http.NewRequest: without a body its error is what Request()
    returns; with a body the error does not leave the block that declared
    it, and Request() goes on to the query with a nil request. *)
Lemma Request_construction_fails r s b e :
  builders s !! r = Some b →
  (Request.body b = None →
   http_NewRequest (Request.method b) (Request.url b) None = inr e →
   Request_Request r s = (Ret (None, Some e), s))
  ∧ (∀ bs, Request.body b ≠ None →
     json_Marshal (objs s) (Request.body b) = inl bs →
     http_NewRequest (Request.method b) (Request.url b) (Some bs) = inr e →
     Request_Request r s =
       (match query_Values (objs s) (Request.query b) with
        | inl _ => Panic nil_deref
        | inr _ => Ret (None, None)
        end, s)).
Proof.
  intros Hb. split.
  - intros Hnil Hnew. unfold Request_Request, Request_query. unfold_M.
    rewrite Hb. simpl. by rewrite Hnil, Hnew.
  - intros bs Hset Hm Hnew. unfold Request_Request, Request_query. unfold_M.
    rewrite Hb. simpl. destruct (Request.body b) as [x|]; [|done].
    rewrite Hm, Hnew. simpl. by destruct (query_Values _ _).
Qed.

End Properties.

(** ** The scenarios *)

Section Scenarios.
#[local] Existing Instance GoStd.libs.
Import Scenario.

(** The package's tests, run on the model. *)

Example TestNew :
  ∃ s b, New empty_St = (Ret 0, s) ∧ builders s !! 0 = Some b
         ∧ Request.method b = "GET" ∧ Request.header b = Some 0
         ∧ clients s = [http_Client 3000000000].
Proof. eexists _, _. repeat split. Qed.

Example TestAddHeader :
  headers_after (r ← New; AddHeader r "authorization" "Bearer 1234")
  = Ret {[ "Authorization" := ["Bearer 1234"] ]}
  ∧ headers_after (r ← New; r ← AddHeader r "content-tYPE" "application/json";
                   AddHeader r "User-AGENT" "chrome")
    = Ret {[ "Content-Type" := ["application/json"]; "User-Agent" := ["chrome"] ]}
  ∧ headers_after (r ← New; r ← AddHeader r "A" "B"; r ← AddHeader r "a" "c";
                   Request_New r)
    = Ret {[ "A" := ["B"; "c"] ]}
  ∧ headers_after (r ← New; r ← AddHeader r "A" "B"; r ← Request_New r;
                   AddHeader r "a" "c")
    = Ret {[ "A" := ["B"; "c"] ]}.
Proof. repeat split; vm_compute; reflexivity. Qed.

Example TestSetQuery :
  ∃ req,
    ((r ← New; r ← SetQuery r (Some (VPtr 0)); r ← Get r "http://example.com";
      Request_Request r) (mkSt [] [] [] [fakeQuery 20 "John"] [] [])).1
    = Ret (Some req, None)
    ∧ URL_String (Req_URL req) = "http://example.com?id=20&name=John".
Proof. eexists. split; vm_compute; reflexivity. Qed.

Example TestSuccess :
  (r ← allocB (Request.mk (Some 0) "" "" None None None None None);
   r ← Get r "http://example.com"; r ← SetSuccess r (Some (VPtr 0)); Execute r)
    (mkSt [] [] [] [fakeSuccess 0 ""] [custom_client 0] [])
  = (Ret (Some (Response.mk 200 ∅ (Some (VPtr 0)) None), None),
     mkSt [Request.mk (Some 0) "GET" "http://example.com" None None None
                      (Some (VPtr 0)) None]
          [] [] [fakeSuccess 200 "John"] [custom_client 0]
          [(0, Some example_request)]).
Proof. vm_compute. reflexivity. Qed.

Example TestFailure :
  (r ← allocB (Request.mk (Some 0) "" "" None None None None None);
   r ← Get r "http://example.com"; r ← SetFailure r (Some (VPtr 0)); Execute r)
    (mkSt [] [] [] [fakeSuccess 0 ""] [custom_client 1] [])
  = (Ret (Some (Response.mk 400 ∅ None (Some (VPtr 0))), None),
     mkSt [Request.mk (Some 0) "GET" "http://example.com" None None None
                      None (Some (VPtr 0))]
          [] [] [fakeSuccess 200 "John"] [custom_client 1]
          [(0, Some example_request)]).
Proof. vm_compute. reflexivity. Qed.

Example TestSetBody :
  ∃ req bs,
    ((r ← New; r ← SetBody r (Some (VPtr 0)); Request_Request r)
       (mkSt [] [] [] [fakeSuccess 10 "Bob"] [] [])).1
    = Ret (Some req, None)
    ∧ json_Marshal [fakeSuccess 10 "Bob"] (Some (VPtr 0)) = inl bs
    ∧ Req_Body req = Some bs.
Proof. eexists _, _. repeat split. Qed.

(** C1, the code at New().AddHeader("A", "B").Get("http://example.com"):
    the builder holds the header A: [B], yet the request Request() returns
    has no header at all, and that request is what Execute() gives to the
    transport. *)
Theorem headers_never_attached :
  ∃ s req,
    with_header empty_St = (Ret 0, s)
    ∧ headers_of 0 s = {[ "A" := ["B"] ]}
    ∧ Request_Request 0 s = (Ret (Some req, None), s)
    ∧ Req_Header req = ∅
    ∧ sent (Execute 0 s).2 = [(0, Some req)].
Proof.
  eexists _, _. split; [vm_compute; reflexivity|].
  split; [vm_compute; reflexivity|].
  split; [vm_compute; reflexivity|].
  split; vm_compute; reflexivity.
Qed.

(** C2, the code at New().Get("http://example.com?a=1") with no query
    object set: the stored URL carries the query a=1, and the request
    Request() returns has lost it. *)
Theorem embedded_query_dropped :
  ∃ s b req,
    with_embedded_query empty_St = (Ret 0, s)
    ∧ builders s !! 0 = Some b
    ∧ Request.query b = None
    ∧ Request.url b = "http://example.com?a=1"
    ∧ Request_Request 0 s = (Ret (Some req, None), s)
    ∧ RawQuery (Req_URL req) = ""
    ∧ URL_String (Req_URL req) = "http://example.com".
Proof.
  eexists _, _, _. split; [vm_compute; reflexivity|].
  split; [vm_compute; reflexivity|].
  split; [vm_compute; reflexivity|].
  split; [vm_compute; reflexivity|].
  split; [vm_compute; reflexivity|].
  split; vm_compute; reflexivity.
Qed.

(** The code at a builder whose method http.NewRequest rejects.  With
    no body, Request() returns nil and the construction error.  With a body
    the error is lost: Request() panics on the nil request when the query
    encodes, and returns nil with a nil error when it does not, upon which
    Execute() gives the nil request to the transport and returns the
    response of the transport and no error. *)
Theorem construction_error_lost :
  ∃ e resp,
    http_NewRequest "bad method" "http://example.com" None = inr e
    ∧ (∀ payload, http_NewRequest "bad method" "http://example.com" payload = inr e)
    ∧ (Request_Request 0 (bad_method None None)).1 = Ret (None, Some e)
    ∧ (Request_Request 0 (bad_method None (Some (VPtr 0)))).1 = Panic nil_deref
    ∧ (Request_Request 0 (bad_method (Some (VInt 3)) (Some (VPtr 0)))).1
      = Ret (None, None)
    ∧ (Execute 0 (bad_method (Some (VInt 3)) (Some (VPtr 0)))).1
      = Ret (Some resp, None)
    ∧ sent (Execute 0 (bad_method (Some (VInt 3)) (Some (VPtr 0)))).2
      = [(0, None)].
Proof.
  eexists _, _. split; [vm_compute; reflexivity|].
  split; [intros payload; reflexivity|].
  split; [vm_compute; reflexivity|].
  split; [vm_compute; reflexivity|].
  split; [vm_compute; reflexivity|].
  split; vm_compute; reflexivity.
Qed.

(** C4, the code at r := New().SetSuccess(p).SetFailure(q); r2 := r.New():
    the header field of r2 refers to another map than that of r, but the
    Success and Failure slots of r2 hold the very references p and q that
    those of r hold. *)
Theorem derived_shares_shapes :
  ∃ s b b2,
    derived_with_shapes empty_St = (Ret (0, 1), s)
    ∧ builders s !! 0 = Some b
    ∧ builders s !! 1 = Some b2
    ∧ Request.header b2 ≠ Request.header b
    ∧ Request.Success b = Some (VPtr 0)
    ∧ Request.Failure b = Some (VPtr 1)
    ∧ Request.Success b2 = Request.Success b
    ∧ Request.Failure b2 = Request.Failure b.
Proof.
  eexists _, _, _. split; [vm_compute; reflexivity|].
  split; [vm_compute; reflexivity|].
  split; [vm_compute; reflexivity|].
  split; [vm_compute; congruence|].
  repeat split.
Qed.

(** C7, the code at a builder b1 that holds A: [a, b, c] and its copy
    b2 := b1.New(): the copy is another builder with another header map of
    equal content and the same client; but the two maps share the array
    behind A, which has room for a fourth value.  After
    b1.AddHeader("A", "e") b1 holds A: [a, b, c, e], and the later
    b2.AddHeader("A", "d") turns that into A: [a, b, c, d]. *)
Theorem derived_headers_share_arrays :
  ∃ s b1 b2,
    derived_after_three_adds empty_St = (Ret (0, 1), s)
    ∧ builders s !! 0 = Some b1
    ∧ builders s !! 1 = Some b2
    ∧ Request.header b2 ≠ Request.header b1
    ∧ Request.client b2 = Request.client b1
    ∧ headers_of 0 s = {[ "A" := ["a"; "b"; "c"] ]}
    ∧ headers_of 1 s = {[ "A" := ["a"; "b"; "c"] ]}
    ∧ let s1 := (AddHeader 0 "A" "e" s).2 in
      let s2 := (AddHeader 1 "A" "d" s1).2 in
      headers_of 0 s1 = {[ "A" := ["a"; "b"; "c"; "e"] ]}
      ∧ headers_of 0 s2 = {[ "A" := ["a"; "b"; "c"; "d"] ]}.
Proof.
  eexists _, _, _. split; [vm_compute; reflexivity|].
  split; [vm_compute; reflexivity|].
  split; [vm_compute; reflexivity|].
  split; [vm_compute; congruence|].
  split; [vm_compute; reflexivity|].
  split; [vm_compute; reflexivity|].
  split; [vm_compute; reflexivity|].
  split; vm_compute; reflexivity.
Qed.

(** C9 as stated fails: Get does not leave every field other than the
    method as it was.  On the builder of New(), Get("http://example.com")
    changes the url field. *)
Lemma Get_changes_url :
  ¬ (∀ (r : addr) (s : St) (b : Request.t) (address : string),
       builders s !! r = Some b →
       Get r address s =
         (Ret r, with_builder r (with_method_url "GET" (Request.url b) b) s)).
Proof.
  intros H.
  specialize (H 0 (New empty_St).2 (Request.mk (Some 0) "GET" "" (Some 0)
                                               None None None None)
                "http://example.com" eq_refl).
  vm_compute in H. discriminate H.
Qed.

(** The dispatch on the mock clients of the tests: status 200 with a
    success shape (TestSuccess), status 400 with a failure shape
    (TestFailure), and status 200 with only a failure shape declared. *)
Lemma decode_dispatch_witness :
  do 0 (Some example_request) (mock 0 None (Some (VPtr 0)) None)
  = (Ret (Some (Response.mk 200 ∅ (Some (VPtr 0)) None), None),
     mkSt (builders (mock 0 None (Some (VPtr 0)) None)) [] []
          [fakeSuccess 200 "John"] [custom_client 0]
          [(0, Some example_request)])
  ∧ do 0 (Some example_request) (mock 1 None None (Some (VPtr 0)))
    = (Ret (Some (Response.mk 400 ∅ None (Some (VPtr 0))), None),
       mkSt (builders (mock 1 None None (Some (VPtr 0)))) [] []
            [fakeSuccess 200 "John"] [custom_client 1]
            [(0, Some example_request)])
  ∧ do 0 (Some example_request) (mock 0 None None (Some (VPtr 0)))
    = (Ret (Some (Response.mk 200 ∅ None None), None),
       mkSt (builders (mock 0 None None (Some (VPtr 0)))) [] []
            [fakeSuccess 0 ""] [custom_client 0]
            [(0, Some example_request)]).
Proof.
  split; [|split].
  - pose proof (decode_dispatch 0 (Some example_request)
                  (mock 0 None (Some (VPtr 0)) None) _ 0 (custom_client 0) _ _
                  eq_refl eq_refl eq_refl eq_refl eq_refl) as (H & _ & _).
    exact (H (VPtr 0) _ _ _ ltac:(simpl; lia) eq_refl eq_refl).
  - pose proof (decode_dispatch 0 (Some example_request)
                  (mock 1 None None (Some (VPtr 0))) _ 0 (custom_client 1) _ _
                  eq_refl eq_refl eq_refl eq_refl eq_refl) as (_ & H & _).
    exact (H (VPtr 0) _ _ _ ltac:(simpl; lia) eq_refl eq_refl).
  - pose proof (decode_dispatch 0 (Some example_request)
                  (mock 0 None None (Some (VPtr 0))) _ 0 (custom_client 0) _ _
                  eq_refl eq_refl eq_refl eq_refl eq_refl) as (_ & _ & H).
    exact (H eq_refl).
Defined.

(** A failed decode on the mock client that answers 404 with a body that
    is not JSON, a failure shape declared. *)
Lemma decode_error_keeps_response_witness :
  ∃ resp s',
    Execute 0 (mock 3 None None (Some (VPtr 0)))
    = (Ret (Some resp,
            Some "failed to decode API response: invalid character in JSON text"),
       s')
    ∧ Response.StatusCode resp = 404%Z
    ∧ Response.Header resp = {[ "Content-Type" := ["text/plain"] ]}.
Proof.
  exact (decode_error_keeps_response 0 (mock 3 None None (Some (VPtr 0))) _
           (Some example_request) 0 (custom_client 3) _ _ (VPtr 0) _ _ _
           eq_refl eq_refl eq_refl eq_refl eq_refl eq_refl eq_refl eq_refl).
Defined.

(** A builder whose query object is an integer, which query.Values does
    not encode. *)
Lemma query_error_swallowed_witness :
  query_Values (objs (mock 0 (Some (VInt 3)) None None)) (Some (VInt 3))
  = inr "query: Values() expects struct input. Got int"
  ∧ Request_Request 0 (mock 0 (Some (VInt 3)) None None)
    = (Ret (Some example_request, None), mock 0 (Some (VInt 3)) None None)
  ∧ sent (Execute 0 (mock 0 (Some (VInt 3)) None None)).2
    = [(0, Some example_request)].
Proof.
  split; [reflexivity|].
  pose proof (query_error_swallowed 0 (mock 0 (Some (VInt 3)) None None) _ _
                None example_request eq_refl ltac:(discriminate) eq_refl
                (or_introl (conj eq_refl eq_refl)) eq_refl) as (HR & _ & HS).
  split; [exact HR|].
  exact (HS 0 (custom_client 0) eq_refl eq_refl).
Defined.

(** Post on the builder of New(). *)
Lemma method_setters_witness :
  builders (New empty_St).2 !! 0
  = Some (Request.mk (Some 0) "GET" "" (Some 0) None None None None)
  ∧ Post 0 "http://example.com/a?b=c" (New empty_St).2
    = (Ret 0, with_builder 0 (Request.mk (Some 0) "POST" "http://example.com/a?b=c"
                                         (Some 0) None None None None)
                           (New empty_St).2).
Proof.
  split; [reflexivity|].
  pose proof (method_setters 0 (New empty_St).2 _ "http://example.com/a?b=c"
                eq_refl) as (_ & H & _).
  exact H.
Defined.

End Scenarios.

(** ** The header maps *)

Section Headers.
Context {L : GoLibs}.
Local Open Scope nat_scope.

(** append when the slice has room: the value is written into the shared
    array, just after the elements of the slice. *)
Lemma append_in_place sl v s :
  s_len sl < s_cap sl →
  append sl v s =
    (Ret (mkSlice (s_arr sl) (S (s_len sl)) (s_cap sl)),
     with_arrays (<[s_arr sl := <[s_len sl := v]> (default [] (arrays s !! s_arr sl))]>
                    (arrays s)) s).
Proof. intros Hlt. unfold append. rewrite decide_True by done. done. Qed.

(** append when the slice is full: a new array holds the elements and the
    value. *)
Lemma append_grow sl v s :
  ¬ s_len sl < s_cap sl →
  append sl v s =
    (Ret (mkSlice (length (arrays s)) (S (s_len sl)) (growcap (s_cap sl))),
     with_arrays (arrays s ++ [slice_elems s sl ++ v ::
                     replicate (growcap (s_cap sl) - S (s_len sl)) ""])%list s).
Proof. intros Hge. unfold append. rewrite decide_False by done. done. Qed.

Lemma slice_wf_lt s sl : slice_wf s sl → s_arr sl < length (arrays s).
Proof. intros (arr & Ha & _). by eapply lookup_lt_Some. Qed.

Lemma slice_elems_length s sl : slice_wf s sl → length (slice_elems s sl) = s_len sl.
Proof.
  intros (arr & Ha & Hlen & _). unfold slice_elems. rewrite Ha. simpl.
  rewrite length_take. lia.
Qed.

(** Appending arrays to the store changes the elements of no slice that is
    well-formed in it. *)
Lemma slice_elems_alloc s sl l :
  slice_wf s sl →
  slice_elems (with_arrays (arrays s ++ l)%list s) sl = slice_elems s sl.
Proof.
  intros Hwf. unfold slice_elems. cbn [arrays with_arrays].
  by rewrite lookup_app_l by (by apply slice_wf_lt).
Qed.

(** A write into an array changes the elements of a slice over another
    array, or over the same array but ending before the written cell, not
    at all. *)
Lemma slice_elems_write s sl a i v :
  s_arr sl ≠ a ∨ s_len sl ≤ i →
  slice_elems (with_arrays (<[a := <[i := v]> (default [] (arrays s !! a))]> (arrays s)) s) sl
  = slice_elems s sl.
Proof.
  intros Hor. unfold slice_elems. cbn [arrays with_arrays].
  destruct (decide (s_arr sl = a)) as [Heq|Hne].
  - destruct Hor as [?|Hle]; [done|]. rewrite Heq.
    destruct (arrays s !! a) as [arr|] eqn:Ha; simpl.
    + rewrite list_lookup_insert_eq by (by eapply lookup_lt_Some). simpl.
      by rewrite take_insert_ge.
    + rewrite list_insert_ge; [by rewrite Ha|]. by apply lookup_ge_None.
  - by rewrite list_lookup_insert_ne.
Qed.

Lemma take_S_insert (arr : list string) n v :
  n < length arr → take (S n) (<[n := v]> arr) = (take n arr ++ [v])%list.
Proof.
  intros Hlt. rewrite (take_S_r _ _ v) by (by apply list_lookup_insert_eq).
  by rewrite take_insert_ge.
Qed.

(** (http.Header).Set on a map of the store. *)
Lemma Header_Set_spec h key value s :
  Header_Set (Some h) key value s =
    (Ret (),
     with_hmaps (<[h := <[CanonicalMIMEHeaderKey key := mkSlice (length (arrays s)) 1 1]>
                          (default ∅ (hmaps s !! h))]> (hmaps s))
                (with_arrays (arrays s ++ [[value]])%list s)).
Proof. done. Qed.

(** (http.Header).Add on a map of the store, when the slice under the key
    has room and when it has not. *)
Lemma Header_Add_in_place h key value s sl :
  default ∅ (hmaps s !! h) !! CanonicalMIMEHeaderKey key = Some sl →
  s_len sl < s_cap sl →
  Header_Add (Some h) key value s =
    (Ret (),
     with_hmaps (<[h := <[CanonicalMIMEHeaderKey key :=
                           mkSlice (s_arr sl) (S (s_len sl)) (s_cap sl)]>
                          (default ∅ (hmaps s !! h))]> (hmaps s))
       (with_arrays (<[s_arr sl := <[s_len sl := value]>
                                     (default [] (arrays s !! s_arr sl))]> (arrays s)) s)).
Proof.
  intros Hk Hlt. unfold Header_Add. unfold mbind at 1, M_bind at 1.
  unfold loadH at 1. rewrite Hk. cbn [default from_option id].
  unfold mbind, M_bind. rewrite append_in_place by done. done.
Qed.

Lemma Header_Add_grow h key value s :
  let sl := default nil_slice (default ∅ (hmaps s !! h) !! CanonicalMIMEHeaderKey key) in
  ¬ s_len sl < s_cap sl →
  Header_Add (Some h) key value s =
    (Ret (),
     with_hmaps (<[h := <[CanonicalMIMEHeaderKey key :=
                           mkSlice (length (arrays s)) (S (s_len sl))
                                   (growcap (s_cap sl))]>
                          (default ∅ (hmaps s !! h))]> (hmaps s))
       (with_arrays (arrays s ++ [slice_elems s sl ++ value ::
                       replicate (growcap (s_cap sl) - S (s_len sl)) ""])%list s)).
Proof.
  intros sl Hge. unfold Header_Add. unfold mbind at 1, M_bind at 1.
  unfold loadH at 1. fold sl.
  unfold mbind, M_bind. rewrite append_grow by done. done.
Qed.

Lemma header_content_insert s h m key sl vs :
  hmaps s !! h = Some (<[key := sl]> m) →
  slice_elems s sl = vs →
  header_content s (Some h) = <[key := vs]> (slice_elems s <$> m).
Proof.
  intros Hh <-. unfold header_content. rewrite Hh. simpl. by rewrite fmap_insert.
Qed.


Lemma insert_fmap_ext {A B} (f g : A → B) (m : gmap string A) key x :
  (∀ k a, k ≠ key → m !! k = Some a → f a = g a) →
  <[key := x]> (f <$> m) = <[key := x]> (g <$> m).
Proof.
  intros Hext. apply map_eq. intros k.
  destruct (decide (key = k)) as [->|Hne].
  - by rewrite !lookup_insert_eq.
  - rewrite !lookup_insert_ne, !lookup_fmap by done.
    destruct (m !! k) as [a|] eqn:Hk; [|done]. simpl. f_equal. eauto.
Qed.

Lemma wf_header_map s r b h :
  wf_store s → builders s !! r = Some b → Request.header b = Some h →
  ∃ m, hmaps s !! h = Some m ∧ map_wf s m.
Proof.
  intros [Hmaps Hrefs] Hb Hh.
  destruct (lookup_lt_is_Some_2 (hmaps s) h) as [m Hm]; [by eapply Hrefs|].
  eauto.
Qed.

Lemma SetHeader_run r s b h key value :
  builders s !! r = Some b →
  Request.header b = Some h →
  SetHeader r key value s =
    (Ret r,
     with_hmaps (<[h := <[CanonicalMIMEHeaderKey key := mkSlice (length (arrays s)) 1 1]>
                          (default ∅ (hmaps s !! h))]> (hmaps s))
                (with_arrays (arrays s ++ [[value]])%list s)).
Proof.
  intros Hb Hh. unfold SetHeader. unfold mbind at 1, M_bind at 1. unfold loadB.
  rewrite Hb, Hh. unfold mbind, M_bind. by rewrite Header_Set_spec.
Qed.

(** SetHeader through one map changes the content of no other map. *)
Lemma SetHeader_other_map r s b h h' key value :
  wf_store s →
  builders s !! r = Some b →
  Request.header b = Some h →
  h' ≠ h →
  header_content (SetHeader r key value s).2 (Some h') = header_content s (Some h').
Proof.
  intros Hwf Hb Hh Hne. rewrite (SetHeader_run r s b h) by done. cbn [snd].
  unfold header_content. cbn [hmaps with_hmaps with_arrays].
  rewrite list_lookup_insert_ne by done.
  destruct (hmaps s !! h') as [m'|] eqn:Hm'; cbn [default from_option id];
    [|by rewrite !fmap_empty].
  apply map_fmap_ext. intros k sl Hk.
  apply (slice_elems_alloc s sl [[value]]).
  destruct Hwf as [Hmaps _]. by eapply (proj1 (Hmaps h' m' Hm')).
Qed.

(** X4: SetHeader puts the single value under the canonical key of the
    builder's headers, keeps the other keys, and changes neither the builder
    objects nor the headers of any other map. *)
Theorem SetHeader_replaces (r : addr) (s : St) (b : Request.t) (h : addr)
    (key value : string) :
  wf_store s →
  builders s !! r = Some b →
  Request.header b = Some h →
  ∃ s',
    SetHeader r key value s = (Ret r, s')
    ∧ builders s' = builders s
    ∧ header_content s' (Some h)
      = <[CanonicalMIMEHeaderKey key := [value]]> (header_content s (Some h))
    ∧ (∀ h', h' ≠ h → header_content s' (Some h') = header_content s (Some h')).
Proof.
  intros Hwf Hb Hh.
  destruct (wf_header_map s r b h Hwf Hb Hh) as (m & Hm & Hmwf).
  pose proof (lookup_lt_Some _ _ _ Hm) as Hlt.
  eexists. split; [by apply (SetHeader_run r s b h)|].
  split; [done|]. split.
  - rewrite Hm. cbn [default from_option id].
    erewrite header_content_insert;
      [|cbn [hmaps with_hmaps]; by apply list_lookup_insert_eq|reflexivity].
    unfold header_content. rewrite Hm. cbn [default from_option id].
    unfold slice_elems at 1. cbn [arrays with_hmaps with_arrays s_arr s_len].
    rewrite list_lookup_middle by done. cbn [default from_option id take].
    apply insert_fmap_ext. intros k sl _ Hk.
    apply (slice_elems_alloc s sl [[value]]). by eapply (proj1 Hmwf).
  - intros h' Hne.
    pose proof (SetHeader_other_map r s b h h' key value Hwf Hb Hh Hne) as H.
    by rewrite (SetHeader_run r s b h) in H.
Qed.

(** AddHeader appends the value to the values under the canonical key of
    the builder's headers, keeps the other keys, and changes no builder
    object. *)
Lemma AddHeader_appends (r : addr) (s : St) (b : Request.t) (h : addr)
    (key value : string) :
  wf_store s →
  builders s !! r = Some b →
  Request.header b = Some h →
  ∃ s',
    AddHeader r key value s = (Ret r, s')
    ∧ builders s' = builders s
    ∧ header_content s' (Some h)
      = <[CanonicalMIMEHeaderKey key :=
            (values_of (header_content s (Some h)) (CanonicalMIMEHeaderKey key)
             ++ [value])%list]> (header_content s (Some h)).
Proof.
  intros Hwf Hb Hh.
  destruct (wf_header_map s r b h Hwf Hb Hh) as (m & Hm & Hslices & Hdistinct).
  pose proof (lookup_lt_Some _ _ _ Hm) as Hlt.
  set (ck := CanonicalMIMEHeaderKey key).
  assert (values_of (header_content s (Some h)) ck
          = slice_elems s (default nil_slice (m !! ck))) as Hold.
  { unfold values_of, header_content. rewrite Hm. cbn [default from_option id].
    rewrite lookup_fmap. by destruct (m !! ck). }
  destruct (decide (s_len (default nil_slice (m !! ck)) < s_cap (default nil_slice (m !! ck))))
    as [Hroom|Hfull].
  - destruct (m !! ck) as [sl|] eqn:Hk; [|simpl in Hroom; lia].
    cbn [default from_option id] in *.
    destruct (Hslices ck sl Hk) as (arr & Harr & Hlen & Hcap).
    eexists. split.
    { unfold AddHeader. unfold mbind at 1, M_bind at 1. unfold loadB. rewrite Hb, Hh.
      unfold mbind, M_bind.
      rewrite (Header_Add_in_place h key value s sl)
        by (rewrite ?Hm; cbn [default from_option id]; done).
      reflexivity. }
    split; [done|]. rewrite Hm. cbn [default from_option id]. fold ck.
    erewrite header_content_insert;
      [|cbn [hmaps with_hmaps]; by apply list_lookup_insert_eq|reflexivity].
    rewrite Hold. unfold header_content. rewrite Hm. cbn [default from_option id].
    unfold slice_elems at 1. cbn [arrays with_hmaps with_arrays s_arr s_len].
    rewrite Harr. cbn [default from_option id].
    rewrite list_lookup_insert_eq by (by eapply lookup_lt_Some).
    cbn [default from_option id].
    rewrite take_S_insert by (specialize (Hcap Hroom); lia).
    unfold slice_elems at 2. rewrite Harr. cbn [default from_option id].
    apply insert_fmap_ext. intros k sl' Hne Hk'.
    pose proof (slice_elems_write s sl' (s_arr sl) (s_len sl) value) as Hw.
    rewrite Harr in Hw. apply Hw. left. by eapply Hdistinct.
  - set (sl := default nil_slice (m !! ck)) in *.
    assert (length (slice_elems s sl) = s_len sl) as Hlen.
    { unfold sl. destruct (m !! ck) as [sl0|] eqn:Hk; cbn [default from_option id].
      - apply slice_elems_length. by eapply Hslices.
      - done. }
    eexists. split.
    { unfold AddHeader. unfold mbind at 1, M_bind at 1. unfold loadB. rewrite Hb, Hh.
      unfold mbind, M_bind.
      rewrite (Header_Add_grow h key value s)
        by (rewrite ?Hm; cbn [default from_option id]; done).
      reflexivity. }
    split; [done|]. rewrite Hm. cbn [default from_option id]. fold ck. fold sl.
    erewrite header_content_insert;
      [|cbn [hmaps with_hmaps]; by apply list_lookup_insert_eq|reflexivity].
    rewrite Hold. unfold header_content. rewrite Hm. cbn [default from_option id].
    unfold slice_elems at 1. cbn [arrays with_hmaps with_arrays s_arr s_len].
    rewrite list_lookup_middle by done. cbn [default from_option id].
    rewrite <- Hlen at 1.
    rewrite (take_app_length' (slice_elems s sl ++ [value])%list)
      || (rewrite cons_middle, app_assoc, take_app_length'
            by (rewrite length_app; simpl; lia)).
    apply insert_fmap_ext. intros k sl' Hne Hk'.
    apply (slice_elems_alloc s sl'). by eapply Hslices.
Qed.


(** *** The well-formedness of the store is kept *)

Lemma slice_wf_alloc s sl l :
  slice_wf s sl → slice_wf (with_arrays (arrays s ++ l)%list s) sl.
Proof.
  intros (arr & Ha & Hlen & Hcap). exists arr. split; [|done].
  cbn [arrays with_arrays]. by apply lookup_app_l_Some.
Qed.

Lemma slice_wf_write s sl a i v :
  slice_wf s sl →
  slice_wf (with_arrays (<[a := <[i := v]> (default [] (arrays s !! a))]> (arrays s)) s) sl.
Proof.
  intros (arr & Ha & Hlen & Hcap). cbn [slice_wf arrays with_arrays]. unfold slice_wf.
  cbn [arrays with_arrays].
  destruct (decide (s_arr sl = a)) as [Heq|Hne].
  - rewrite <- Heq, Ha. cbn [default from_option id].
    exists (<[i := v]> arr). rewrite length_insert.
    split; [|done]. apply list_lookup_insert_eq. by eapply lookup_lt_Some.
  - exists arr. by rewrite list_lookup_insert_ne.
Qed.

Lemma wf_store_arrays s arrs :
  (∀ sl, slice_wf s sl → slice_wf (with_arrays arrs s) sl) →
  wf_store s → wf_store (with_arrays arrs s).
Proof.
  intros Hmono [Hmaps Hrefs]. split; [|done].
  intros h m Hm. destruct (Hmaps h m Hm) as [Hsl Hd]. split; [|done].
  intros k sl Hk. apply Hmono. by eapply Hsl.
Qed.

Lemma wf_store_assign s h m key sl :
  wf_store s →
  hmaps s !! h = Some m →
  slice_wf s sl →
  (∀ k sl', k ≠ key → m !! k = Some sl' → s_arr sl' ≠ s_arr sl) →
  wf_store (with_hmaps (<[h := <[key := sl]> m]> (hmaps s)) s).
Proof.
  intros [Hmaps Hrefs] Hm Hsl Hfresh.
  pose proof (lookup_lt_Some _ _ _ Hm) as Hlt.
  split; cbn [hmaps builders with_hmaps].
  - intros h' m' Hm'. destruct (decide (h' = h)) as [->|Hne].
    + rewrite list_lookup_insert_eq in Hm' by done. injection Hm' as <-.
      destruct (Hmaps h m Hm) as [Hslices Hd]. split.
      * intros k sl' Hk. destruct (decide (key = k)) as [->|Hk'].
        -- rewrite lookup_insert_eq in Hk. by injection Hk as <-.
        -- rewrite lookup_insert_ne in Hk by done. by eapply Hslices.
      * intros k1 k2 sl1 sl2 H1 H2 Hne.
        destruct (decide (key = k1)) as [E1|Hk1];
          destruct (decide (key = k2)) as [E2|Hk2]; [congruence|subst k1|subst k2|].
        -- rewrite lookup_insert_eq in H1. injection H1 as <-.
           rewrite lookup_insert_ne in H2 by done.
           intros Heq. by eapply (Hfresh k2 sl2).
        -- rewrite lookup_insert_eq in H2. injection H2 as <-.
           rewrite lookup_insert_ne in H1 by done.
           by eapply (Hfresh k1 sl1).
        -- rewrite lookup_insert_ne in H1, H2 by done. by eapply Hd.
    + rewrite list_lookup_insert_ne in Hm' by done.
      destruct (Hmaps h' m' Hm') as [Hslices Hd]. by split.
  - intros r b h' Hb Hh'. rewrite length_insert. by eapply Hrefs.
Qed.

Lemma Header_Set_wf ho key value s :
  wf_store s → wf_store (Header_Set ho key value s).2.
Proof.
  intros Hwf.
  assert (wf_store (with_arrays (arrays s ++ [[value]])%list s)) as Hwf1.
  { apply wf_store_arrays; [|done]. intros sl. apply slice_wf_alloc. }
  destruct ho as [h|]; [|exact Hwf1].
  rewrite Header_Set_spec. cbn [snd].
  destruct (hmaps s !! h) as [m|] eqn:Hm; cbn [default from_option id].
  - apply (wf_store_assign (with_arrays (arrays s ++ [[value]])%list s) h m); [done..| |].
    + exists [value]. cbn [arrays with_arrays s_arr s_len s_cap].
      split; [by apply list_lookup_middle|]. simpl. split; lia.
    + intros k sl' _ Hk. cbn [s_arr].
      destruct Hwf as [Hmaps _]. destruct (Hmaps h m Hm) as [Hsl _].
      pose proof (slice_wf_lt s sl' (Hsl k sl' Hk)). lia.
  - unfold with_hmaps. cbn [hmaps with_arrays].
    rewrite list_insert_ge by (by apply lookup_ge_None). exact Hwf1.
Qed.

Lemma Header_Add_wf ho key value s :
  wf_store s → wf_store (Header_Add ho key value s).2.
Proof.
  intros Hwf. set (ck := CanonicalMIMEHeaderKey key).
  set (m := default ∅ (ho ≫= λ h, hmaps s !! h)).
  set (sl := default nil_slice (m !! ck)).
  assert (∀ l, wf_store (with_arrays (arrays s ++ l)%list s)) as Hwf_alloc.
  { intros l. apply wf_store_arrays; [|done]. intros sl0. apply slice_wf_alloc. }
  destruct ho as [h|].
  - destruct (hmaps s !! h) as [m0|] eqn:Hm.
    + destruct Hwf as [Hmaps Hrefs]. destruct (Hmaps h m0 Hm) as [Hsl Hd].
      assert (m = m0) as -> by (unfold m; simpl; by rewrite Hm).
      destruct (decide (s_len sl < s_cap sl)) as [Hroom|Hfull].
      * destruct (m0 !! ck) as [sl0|] eqn:Hk; [|unfold sl in Hroom; simpl in Hroom; lia].
        unfold sl in *. cbn [default from_option id] in *.
        rewrite (Header_Add_in_place h key value s sl0)
          by (rewrite ?Hm; cbn [default from_option id]; done).
        cbn [snd]. rewrite Hm. cbn [default from_option id].
        apply (wf_store_assign (with_arrays _ s) h m0); [| done | |].
        -- apply wf_store_arrays; [|by split]. intros sl1. apply slice_wf_write.
        -- pose proof (slice_wf_write s sl0 (s_arr sl0) (s_len sl0) value (Hsl ck sl0 Hk))
             as (arr & Ha & Hlen & Hcap).
           destruct (Hsl ck sl0 Hk) as (arr0 & Ha0 & Hlen0 & Hcap0).
           exists arr. cbn [s_arr s_len s_cap]. split; [done|].
           assert (length arr = length arr0) as Hl.
           { cbn [arrays with_arrays] in Ha. rewrite Ha0 in Ha.
             cbn [default from_option id] in Ha.
             rewrite list_lookup_insert_eq in Ha by (by eapply lookup_lt_Some).
             injection Ha as <-. by rewrite length_insert. }
           specialize (Hcap0 Hroom). split; lia.
        -- intros k sl' Hne Hk'. cbn [s_arr]. by eapply Hd.
      * rewrite (Header_Add_grow h key value s)
          by (rewrite ?Hm; cbn [default from_option id]; done).
        cbn [snd]. rewrite Hm. cbn [default from_option id].
        apply (wf_store_assign (with_arrays _ s) h m0); [by apply Hwf_alloc | done | |].
        -- eexists. cbn [arrays with_arrays s_arr s_len s_cap].
           split; [by apply list_lookup_middle|].
           rewrite length_app. cbn [length]. rewrite length_replicate.
           fold ck. fold sl.
           assert (length (slice_elems s sl) = s_len sl) as Hlen.
           { unfold sl. destruct (m0 !! ck) as [sl0|] eqn:Hk; cbn [default from_option id].
             - apply slice_elems_length. by eapply Hsl.
             - done. }
           rewrite Hlen. split; lia.
        -- intros k sl' _ Hk'. cbn [s_arr].
           pose proof (slice_wf_lt s sl' (Hsl k sl' Hk')). cbn [arrays with_arrays]. lia.
    + (* the field refers to no map of the store *)
      assert (m = ∅) as Hm0 by (unfold m; simpl; by rewrite Hm).
      assert (sl = nil_slice) as Hsl0 by (unfold sl; by rewrite Hm0, lookup_empty).
      rewrite (Header_Add_grow h key value s)
        by (rewrite ?Hm; cbn [default from_option id]; rewrite lookup_empty; simpl; lia).
      cbn [snd]. unfold with_hmaps. cbn [hmaps with_arrays].
      rewrite list_insert_ge by (by apply lookup_ge_None). apply Hwf_alloc.
  - unfold Header_Add. unfold mbind, M_bind, loadH. rewrite lookup_empty.
    cbn [default from_option id].
    rewrite append_grow by (simpl; lia). apply Hwf_alloc.
Qed.


Lemma wf_store_same s s' : same_builders s s' → wf_store s → wf_store s'.
Proof.
  intros (HB & HH & HA & _) [Hmaps Hrefs]. split.
  - intros h m. rewrite HH. intros Hm. destruct (Hmaps h m Hm) as [Hsl Hd].
    split; [|done]. intros k sl Hk. destruct (Hsl k sl Hk) as (arr & Ha & Hlen).
    exists arr. by rewrite HA.
  - intros r b h. rewrite HB, HH. apply Hrefs.
Qed.

Lemma wf_with_builder s r b b' :
  wf_store s → builders s !! r = Some b →
  Request.header b' = Request.header b →
  wf_store (with_builder r b' s).
Proof.
  intros [Hmaps Hrefs] Hb Hh. split; [done|].
  intros r0 b0 h. cbn [builders hmaps with_builder]. intros Hb0 Hh0.
  destruct (decide (r0 = r)) as [->|Hne].
  - rewrite list_lookup_insert_eq in Hb0 by (by eapply lookup_lt_Some).
    injection Hb0 as <-. eapply Hrefs; [done|congruence].
  - rewrite list_lookup_insert_ne in Hb0 by done. by eapply Hrefs.
Qed.

(** A new map and a new builder that refers to it. *)
Lemma wf_store_derive s m b cs :
  wf_store s → map_wf s m →
  Request.header b = Some (length (hmaps s)) →
  wf_store (mkSt (builders s ++ [b]) (hmaps s ++ [m]) (arrays s) (objs s) cs (sent s)).
Proof.
  intros [Hmaps Hrefs] Hm Hh. split; cbn [builders hmaps arrays].
  - intros h m'. intros Hl. apply lookup_app_Some in Hl as [Hl|[_ Hl]].
    + destruct (Hmaps h m' Hl) as [Hsl Hd]. by split.
    + apply list_lookup_singleton_Some in Hl as [_ <-]. destruct Hm as [Hsl Hd]. by split.
  - intros r b0 h Hl Hh0. rewrite length_app. cbn [length].
    apply lookup_app_Some in Hl as [Hl|[_ Hl]].
    + pose proof (Hrefs r b0 h Hl Hh0). lia.
    + apply list_lookup_singleton_Some in Hl as [_ <-].
      rewrite Hh in Hh0. injection Hh0 as <-. lia.
Qed.

Lemma map_wf_empty s : map_wf s ∅.
Proof. split; [intros k sl|intros k1 k2 sl1 sl2]; by rewrite lookup_empty. Qed.

Lemma wf_empty : wf_store empty_St.
Proof. split; [intros h m Hm|intros r b h Hb]; cbn in *; by rewrite lookup_nil in *. Qed.

Lemma New_wf s : wf_store s → wf_store (New s).2.
Proof. intros Hwf. by apply (wf_store_derive s ∅); [|apply map_wf_empty|]. Qed.

Lemma Request_New_wf r s : wf_store s → wf_store (Request_New r s).2.
Proof.
  intros Hwf. destruct (builders s !! r) as [b|] eqn:Hb.
  - rewrite (Request_New_spec r s b Hb). cbn [snd].
    apply wf_store_derive; [done| |done].
    unfold header_map. destruct (Request.header b) as [a|]; [|apply map_wf_empty].
    destruct (hmaps s !! a) as [m|] eqn:Hm; cbn [default from_option id];
      [|apply map_wf_empty].
    destruct Hwf as [Hmaps _]. by eapply Hmaps.
  - unfold Request_New. unfold mbind, M_bind, allocH, loadB. cbn [builders].
    rewrite Hb. cbn [snd].
    destruct Hwf as [Hmaps Hrefs]. split; cbn [builders hmaps].
    + intros h m Hl. apply lookup_app_Some in Hl as [Hl|[_ Hl]].
      * destruct (Hmaps h m Hl) as [Hsl Hd]. by split.
      * apply list_lookup_singleton_Some in Hl as [_ <-]. apply map_wf_empty.
    + intros r0 b0 h Hl Hh. rewrite length_app.
      pose proof (Hrefs r0 b0 h Hl Hh). lia.
Qed.

Lemma setter_wf (f : Request.t → Request.t) r s :
  (∀ b, Request.header (f b) = Request.header b) →
  wf_store s → wf_store ((b ← loadB r; storeB r (f b);; mret r) s).2.
Proof.
  intros Hf Hwf. unfold mbind, M_bind, loadB, storeB, mret, M_ret.
  destruct (builders s !! r) as [b|] eqn:Hb; [|done].
  by apply (wf_with_builder s r b).
Qed.

Lemma method_setter_wf verb r address s :
  wf_store s → wf_store ((set_method r verb;; setURL r address) s).2.
Proof.
  intros Hwf. destruct (builders s !! r) as [b|] eqn:Hb.
  - rewrite (set_method_setURL r s b verb address Hb). by apply (wf_with_builder s r b).
  - unfold set_method. unfold mbind, M_bind, loadB. by rewrite Hb.
Qed.

Lemma SetHeader_wf r key value s : wf_store s → wf_store (SetHeader r key value s).2.
Proof.
  intros Hwf. unfold SetHeader. unfold mbind at 1, M_bind at 1. unfold loadB.
  destruct (builders s !! r) as [b|]; [|done].
  unfold mbind, M_bind, mret, M_ret.
  pose proof (Header_Set_wf (Request.header b) key value s Hwf) as H.
  by destruct (Header_Set _ _ _ s) as [[[]|msg] s'].
Qed.

Lemma AddHeader_wf r key value s : wf_store s → wf_store (AddHeader r key value s).2.
Proof.
  intros Hwf. unfold AddHeader. unfold mbind at 1, M_bind at 1. unfold loadB.
  destruct (builders s !! r) as [b|]; [|done].
  unfold mbind, M_bind, mret, M_ret.
  pose proof (Header_Add_wf (Request.header b) key value s Hwf) as H.
  by destruct (Header_Add _ _ _ s) as [[[]|msg] s'].
Qed.

Lemma Execute_same_builders r s : same_builders s (Execute r s).2.
Proof.
  unfold Execute, sendRequest. apply bind_frame.
  - rewrite Request_Request_state. apply same_builders_refl.
  - intros [req [e|]] s1; [apply same_builders_refl|apply do_frame].
Qed.

Lemma after_call_wf (c : call) (s : St) :
  wf_store s → wf_store (after_call c s).
Proof.
  intros Hwf. destruct c; cbn [after_call].
  - by apply New_wf.
  - by apply Request_New_wf.
  - by apply (setter_wf (λ b, Request.mk _ _ _ _ _ _ _ _)).
  - by apply (setter_wf (λ b, Request.mk _ _ _ _ _ _ _ _)).
  - by apply SetHeader_wf.
  - by apply AddHeader_wf.
  - by apply (setter_wf (λ b, Request.mk _ _ _ _ _ _ _ _)).
  - by apply (setter_wf (λ b, Request.mk _ _ _ _ _ _ _ _)).
  - by apply method_setter_wf.
  - by apply method_setter_wf.
  - by apply method_setter_wf.
  - by apply method_setter_wf.
  - by apply method_setter_wf.
  - by apply method_setter_wf.
  - by rewrite Request_Request_state.
  - eapply wf_store_same; [|done]. apply Execute_same_builders.
Qed.

Lemma wf_after_calls cs s : wf_store s → wf_store (after_calls cs s).
Proof.
  revert s. induction cs as [|c cs IH]; intros s Hwf; [done|].
  cbn [after_calls foldl]. apply IH. by apply after_call_wf.
Qed.


(** AddHeader through one of two maps that hold the same slice headers
    leaves the content of the other as it was. *)
Lemma AddHeader_twin r s b h h' m key value :
  wf_store s →
  builders s !! r = Some b →
  Request.header b = Some h →
  hmaps s !! h = Some m →
  hmaps s !! h' = Some m →
  h' ≠ h →
  header_content (AddHeader r key value s).2 (Some h') = header_content s (Some h').
Proof.
  intros Hwf Hb Hh Hm Hm' Hne.
  destruct Hwf as [Hmaps Hrefs]. destruct (Hmaps h m Hm) as [Hsl Hd].
  set (ck := CanonicalMIMEHeaderKey key).
  unfold AddHeader. unfold mbind at 1, M_bind at 1. unfold loadB. rewrite Hb, Hh.
  unfold mbind, M_bind.
  destruct (decide (s_len (default nil_slice (m !! ck)) < s_cap (default nil_slice (m !! ck))))
    as [Hroom|Hfull].
  - destruct (m !! ck) as [sl|] eqn:Hk; [|simpl in Hroom; lia].
    cbn [default from_option id] in Hroom.
    rewrite (Header_Add_in_place h key value s sl)
      by (rewrite ?Hm; cbn [default from_option id]; done).
    cbn [snd mret M_ret]. unfold header_content. cbn [hmaps with_hmaps with_arrays].
    rewrite list_lookup_insert_ne, Hm' by done. cbn [default from_option id].
    apply map_fmap_ext. intros k sl' Hk'.
    destruct (Hsl ck sl Hk) as (arr & Harr & _).
    pose proof (slice_elems_write s sl' (s_arr sl) (s_len sl) value) as Hw.
    rewrite Harr in Hw. rewrite Harr. apply Hw.
    destruct (decide (k = ck)) as [->|Hkne].
    + right. assert (sl' = sl) as -> by congruence. done.
    + left. by eapply Hd.
  - rewrite (Header_Add_grow h key value s)
      by (rewrite ?Hm; cbn [default from_option id]; done).
    cbn [snd mret M_ret]. unfold header_content. cbn [hmaps with_hmaps with_arrays].
    rewrite list_lookup_insert_ne, Hm' by done. cbn [default from_option id].
    apply map_fmap_ext. intros k sl' Hk'.
    apply (slice_elems_alloc s sl'). by eapply Hsl.
Qed.

(** X8: The first change of headers after a copy is made does not reach the
    other builder: with b2 := b1.New(), an AddHeader or SetHeader on b2
    leaves the headers of b1 as they were, and one on b1 leaves those of
    b2. *)
Theorem derived_first_change_isolated (r1 : addr) (s : St) (b1 : Request.t)
    (h1 : addr) :
  wf_store s →
  builders s !! r1 = Some b1 →
  Request.header b1 = Some h1 →
  ∃ r2 s1 b2 h2,
    Request_New r1 s = (Ret r2, s1)
    ∧ builders s1 !! r1 = Some b1
    ∧ builders s1 !! r2 = Some b2
    ∧ Request.header b2 = Some h2
    ∧ h2 ≠ h1
    ∧ ∀ key value,
        header_content (AddHeader r2 key value s1).2 (Some h1)
        = header_content s1 (Some h1)
        ∧ header_content (SetHeader r2 key value s1).2 (Some h1)
          = header_content s1 (Some h1)
        ∧ header_content (AddHeader r1 key value s1).2 (Some h2)
          = header_content s1 (Some h2)
        ∧ header_content (SetHeader r1 key value s1).2 (Some h2)
          = header_content s1 (Some h2).
Proof.
  intros Hwf Hb Hh.
  destruct (wf_header_map s r1 b1 h1 Hwf Hb Hh) as (m & Hm & Hmwf).
  pose proof (lookup_lt_Some _ _ _ Hm) as Hlt.
  pose proof (lookup_lt_Some _ _ _ Hb) as Hltb.
  pose proof (Request_New_wf r1 s Hwf) as Hwf1.
  rewrite (Request_New_spec r1 s b1 Hb) in Hwf1. cbn [snd] in Hwf1.
  eexists _, _, _, _. split; [by apply Request_New_spec|].
  set (s1 := mkSt _ _ _ _ _ _) in *.
  assert (builders s1 !! r1 = Some b1) as Hb1
    by (unfold s1; cbn [builders]; by rewrite lookup_app_l).
  assert (hmaps s1 !! h1 = Some m) as Hm1
    by (unfold s1; cbn [hmaps]; by rewrite lookup_app_l).
  assert (hmaps s1 !! length (hmaps s) = Some m) as Hm2.
  { unfold s1, header_map. cbn [hmaps]. rewrite Hh, Hm. by apply list_lookup_middle. }
  set (b2 := Request.mk (Request.client b1) (Request.method b1) (Request.url b1)
                        (Some (length (hmaps s))) (Request.query b1)
                        (Request.body b1) (Request.Success b1) (Request.Failure b1)).
  assert (builders s1 !! length (builders s) = Some b2) as Hb2
    by (unfold s1; cbn [builders]; by apply list_lookup_middle).
  assert (length (hmaps s) ≠ h1) as Hne by lia.
  split; [done|]. split; [done|]. split; [done|]. split; [done|].
  intros key value. split; [|split; [|split]].
  - by apply (AddHeader_twin _ s1 b2 (length (hmaps s)) h1 m).
  - by apply (SetHeader_other_map _ s1 b2 (length (hmaps s)) h1).
  - by apply (AddHeader_twin _ s1 b1 h1 (length (hmaps s)) m).
  - by apply (SetHeader_other_map _ s1 b1 h1 (length (hmaps s))).
Qed.

(** X6: A builder whose header field is nil, as a struct literal without one
    leaves it: AddHeader and SetHeader panic on the assignment into the nil
    map, and no builder object changes. *)
Theorem header_on_nil_map_panics (r : addr) (s : St) (b : Request.t)
    (key value : string) :
  builders s !! r = Some b →
  Request.header b = None →
  (AddHeader r key value s).1 = Panic "assignment to entry in nil map"
  ∧ (SetHeader r key value s).1 = Panic "assignment to entry in nil map"
  ∧ builders (AddHeader r key value s).2 = builders s
  ∧ builders (SetHeader r key value s).2 = builders s
  ∧ hmaps (AddHeader r key value s).2 = hmaps s
  ∧ hmaps (SetHeader r key value s).2 = hmaps s.
Proof.
  intros Hb Hh.
  assert (AddHeader r key value s
          = (Panic "assignment to entry in nil map",
             with_arrays (arrays s ++ [value :: replicate (growcap 0 - 1) ""])%list s))
    as ->.
  { unfold AddHeader, Header_Add. unfold mbind at 1, M_bind at 1. unfold loadB.
    rewrite Hb, Hh. unfold mbind, M_bind, loadH. rewrite lookup_empty.
    cbn [default from_option id]. rewrite append_grow by (simpl; lia). done. }
  assert (SetHeader r key value s
          = (Panic "assignment to entry in nil map",
             with_arrays (arrays s ++ [[value]])%list s)) as ->.
  { unfold SetHeader, Header_Set. unfold mbind at 1, M_bind at 1. unfold loadB.
    by rewrite Hb, Hh. }
  done.
Qed.

(** X5: AddHeader is cumulative: a chain of AddHeader calls whose keys have one
    canonical form appends their values, in the order of the calls, to the
    values the builder held under that key; the other keys keep their values
    and no builder object changes. *)
Theorem AddHeader_accumulates (r : addr) (kvs : list (string * string))
    (ck : string) :
  ∀ (s : St) (b : Request.t) (h : addr),
  wf_store s →
  builders s !! r = Some b →
  Request.header b = Some h →
  Forall (λ kv, CanonicalMIMEHeaderKey kv.1 = ck) kvs →
  ∃ s',
    add_headers r kvs s = (Ret r, s')
    ∧ builders s' = builders s
    ∧ values_of (header_content s' (Some h)) ck
      = (values_of (header_content s (Some h)) ck ++ (snd <$> kvs))%list
    ∧ ∀ k, k ≠ ck → header_content s' (Some h) !! k = header_content s (Some h) !! k.
Proof.
  induction kvs as [|[key value] kvs IH]; intros s b h Hwf Hb Hh Hkeys.
  - exists s. cbn [add_headers fmap list_fmap]. by rewrite app_nil_r.
  - apply Forall_cons in Hkeys as [Hkey Hkeys]. cbn [fst] in Hkey.
    destruct (AddHeader_appends r s b h key value Hwf Hb Hh) as (s1 & Hrun & HB & Hc).
    pose proof (AddHeader_wf r key value s Hwf) as Hwf1. rewrite Hrun in Hwf1.
    cbn [snd] in Hwf1.
    destruct (IH s1 b h Hwf1 ltac:(by rewrite HB) Hh Hkeys) as (s' & Hrun' & HB' & Hv & Hk).
    exists s'. split.
    { cbn [add_headers]. unfold mbind, M_bind. by rewrite Hrun. }
    split; [congruence|]. rewrite Hkey in Hc. split.
    + rewrite Hv, Hc. unfold values_of at 1. rewrite lookup_insert_eq.
      cbn [default from_option id fmap list_fmap snd]. by rewrite <- app_assoc.
    + intros k Hne. rewrite Hk, Hc by done. by rewrite lookup_insert_ne.
Qed.

Lemma header_ops_builders ho key value s :
  builders (Header_Add ho key value s).2 = builders s
  ∧ builders (Header_Set ho key value s).2 = builders s.
Proof.
  split.
  - unfold Header_Add, append, mapassign. unfold_M. destruct ho as [h|];
      cbn [default from_option id]; case_decide; done.
  - unfold Header_Set, mapassign. unfold_M. by destruct ho.
Qed.

Lemma headers_set_same s s' :
  builders s' = builders s → headers_set s → headers_set s'.
Proof. intros HB Hs r b. rewrite HB. apply Hs. Qed.

Lemma headers_set_alloc s s' b :
  builders s' = (builders s ++ [b])%list →
  Request.header b ≠ None →
  headers_set s → headers_set s'.
Proof.
  intros HB Hb Hs r b0. rewrite HB. intros Hl.
  apply lookup_app_Some in Hl as [Hl|[_ Hl]]; [by eapply Hs|].
  by apply list_lookup_singleton_Some in Hl as [_ <-].
Qed.

Lemma headers_set_with_builder s r b b' :
  builders s !! r = Some b →
  Request.header b' = Request.header b →
  headers_set s → headers_set (with_builder r b' s).
Proof.
  intros Hb Hh Hs r0 b0. cbn [builders with_builder]. intros Hb0.
  destruct (decide (r0 = r)) as [->|Hne].
  - rewrite list_lookup_insert_eq in Hb0 by (by eapply lookup_lt_Some).
    injection Hb0 as <-. rewrite Hh. by eapply Hs.
  - rewrite list_lookup_insert_ne in Hb0 by done. by eapply Hs.
Qed.

Lemma setter_headers_set (f : Request.t → Request.t) r s :
  (∀ b, Request.header (f b) = Request.header b) →
  headers_set s → headers_set ((b ← loadB r; storeB r (f b);; mret r) s).2.
Proof.
  intros Hf Hs. unfold mbind, M_bind, loadB, storeB, mret, M_ret.
  destruct (builders s !! r) as [b|] eqn:Hb; [|done].
  by apply (headers_set_with_builder s r b).
Qed.

Lemma method_setter_headers_set verb r address s :
  headers_set s → headers_set ((set_method r verb;; setURL r address) s).2.
Proof.
  intros Hs. destruct (builders s !! r) as [b|] eqn:Hb.
  - rewrite (set_method_setURL r s b verb address Hb).
    by apply (headers_set_with_builder s r b).
  - unfold set_method. unfold mbind, M_bind, loadB. by rewrite Hb.
Qed.

Lemma after_call_headers_set (c : call) (s : St) :
  headers_set s → headers_set (after_call c s).
Proof.
  intros Hs.
  destruct c as [|r|r v|r v|r key val|r key val|r v|r v|r u|r u|r u|r u|r u|r u|r|r];
    cbn [after_call].
  - by apply (headers_set_alloc s _ (Request.mk (Some (length (clients s))) "GET" ""
                (Some (length (hmaps s))) None None None None)).
  - destruct (builders s !! r) as [b|] eqn:Hb.
    + rewrite (Request_New_spec r s b Hb). cbn [snd].
      by eapply headers_set_alloc; [reflexivity| |done].
    + unfold Request_New. unfold mbind, M_bind, allocH, loadB. cbn [builders].
      rewrite Hb. by eapply headers_set_same.
  - by apply (setter_headers_set (λ b, Request.mk _ _ _ _ _ _ _ _)).
  - by apply (setter_headers_set (λ b, Request.mk _ _ _ _ _ _ _ _)).
  - eapply headers_set_same; [|done]. unfold SetHeader.
    unfold mbind at 1, M_bind at 1. unfold loadB.
    destruct (builders s !! r) as [b|]; [|done].
    pose proof (proj2 (header_ops_builders (Request.header b) key val s)) as H.
    unfold mbind, M_bind, mret, M_ret.
    by destruct (Header_Set _ _ _ s) as [[[]|msg] s'].
  - eapply headers_set_same; [|done]. unfold AddHeader.
    unfold mbind at 1, M_bind at 1. unfold loadB.
    destruct (builders s !! r) as [b|]; [|done].
    pose proof (proj1 (header_ops_builders (Request.header b) key val s)) as H.
    unfold mbind, M_bind, mret, M_ret.
    by destruct (Header_Add _ _ _ s) as [[[]|msg] s'].
  - by apply (setter_headers_set (λ b, Request.mk _ _ _ _ _ _ _ _)).
  - by apply (setter_headers_set (λ b, Request.mk _ _ _ _ _ _ _ _)).
  - by apply method_setter_headers_set.
  - by apply method_setter_headers_set.
  - by apply method_setter_headers_set.
  - by apply method_setter_headers_set.
  - by apply method_setter_headers_set.
  - by apply method_setter_headers_set.
  - by rewrite Request_Request_state.
  - eapply headers_set_same; [|done]. apply Execute_same_builders.
Qed.

Lemma headers_set_after_calls cs s : headers_set s → headers_set (after_calls cs s).
Proof.
  revert s. induction cs as [|c cs IH]; intros s Hs; [done|].
  cbn [after_calls foldl]. apply IH. by apply after_call_headers_set.
Qed.

(** X9: Every store that calls of the exported functions reach from the
    empty store, with whatever arguments and whether they return or panic,
    is well-formed, and every builder in it has a header map: its header
    field is not nil and refers to a map of the store; every slice of a map
    lies within its array, and the keys of one map have arrays of their
    own. *)
Theorem reachable_wf (cs : list call) :
  wf_store (after_calls cs empty_St)
  ∧ ∀ r b, builders (after_calls cs empty_St) !! r = Some b →
      ∃ h m, Request.header b = Some h
             ∧ hmaps (after_calls cs empty_St) !! h = Some m
             ∧ map_wf (after_calls cs empty_St) m.
Proof.
  pose proof (wf_after_calls cs empty_St wf_empty) as Hwf.
  split; [done|]. intros r b Hb.
  assert (headers_set (after_calls cs empty_St)) as Hs.
  { apply headers_set_after_calls. intros r0 b0. cbn. by rewrite lookup_nil. }
  destruct (Request.header b) as [h|] eqn:Hh; [|by destruct (Hs r b Hb)].
  destruct (wf_header_map _ r b h Hwf Hb Hh) as (m & Hm & Hmwf). eauto.
Qed.

End Headers.

(** ** The builder and the pipeline, further *)

Section Pipeline.
Context {L : GoLibs}.
Local Open Scope nat_scope.

(** X1: New() from any store: a builder at a new address, with method GET, a
    header map of its own that is not nil and holds nothing, the standard
    client with a timeout of three seconds, and no URL, query, body or
    shapes; the builders the store had are as they were. *)
Theorem New_builder (s : St) :
  ∃ r s' h c,
    New s = (Ret r, s')
    ∧ builders s !! r = None
    ∧ builders s' !! r
      = Some (Request.mk (Some c) "GET" "" (Some h) None None None None)
    ∧ hmaps s !! h = None
    ∧ header_content s' (Some h) = ∅
    ∧ clients s' !! c = Some (http_Client 3000000000)
    ∧ (∀ r0 b0, builders s !! r0 = Some b0 → builders s' !! r0 = Some b0).
Proof.
  eexists _, _, _, _. split; [reflexivity|]. cbn [builders hmaps clients].
  split; [by apply lookup_ge_None_2|].
  split; [by apply list_lookup_middle|].
  split; [by apply lookup_ge_None_2|].
  split.
  { unfold header_content. cbn [hmaps]. rewrite list_lookup_middle by done.
    cbn [default from_option id]. by rewrite fmap_empty. }
  split; [by apply list_lookup_middle|].
  intros r0 b0 Hb0. by apply lookup_app_l_Some.
Qed.

(** X2: SetQuery, SetBody, SetSuccess and SetFailure return the builder they
    were called on and store their argument in their field; no other field
    of the builder and nothing else in the store changes. *)
Theorem object_setters (r : addr) (s : St) (b : Request.t) (v : iface) :
  builders s !! r = Some b →
  SetQuery r v s =
    (Ret r, with_builder r
              (Request.mk (Request.client b) (Request.method b) (Request.url b)
                          (Request.header b) v (Request.body b)
                          (Request.Success b) (Request.Failure b)) s)
  ∧ SetBody r v s =
    (Ret r, with_builder r
              (Request.mk (Request.client b) (Request.method b) (Request.url b)
                          (Request.header b) (Request.query b) v
                          (Request.Success b) (Request.Failure b)) s)
  ∧ SetSuccess r v s =
    (Ret r, with_builder r
              (Request.mk (Request.client b) (Request.method b) (Request.url b)
                          (Request.header b) (Request.query b) (Request.body b)
                          v (Request.Failure b)) s)
  ∧ SetFailure r v s =
    (Ret r, with_builder r
              (Request.mk (Request.client b) (Request.method b) (Request.url b)
                          (Request.header b) (Request.query b) (Request.body b)
                          (Request.Success b) v) s).
Proof.
  intros Hb. unfold SetQuery, SetBody, SetSuccess, SetFailure. unfold_M.
  by rewrite Hb.
Qed.

(** X3: A method setter called with a URL that does not parse still sets the
    method; the url field keeps what it held and no error is reported. *)
Theorem method_setter_unparseable (r : addr) (s : St) (b : Request.t)
    (address : string) (e : error) :
  builders s !! r = Some b →
  url_Parse address = inr e →
  let keep verb :=
    (Ret r, with_builder r (with_method_url verb (Request.url b) b) s) in
  Get r address s = keep "GET"
  ∧ Post r address s = keep "POST"
  ∧ Put r address s = keep "PUT"
  ∧ Patch r address s = keep "PATCH"
  ∧ Delete r address s = keep "DELETE"
  ∧ Head r address s = keep "HEAD".
Proof.
  intros Hb Hparse keep. unfold Get, Post, Put, Patch, Delete, Head, keep.
  repeat split; rewrite (set_method_setURL r s b _ address Hb);
    unfold stored_url; by rewrite Hparse.
Qed.

(** The store after a request has been given to a client. *)
Lemma do_run r req s b c impl :
  builders s !! r = Some b →
  Request.client b = Some c →
  clients s !! c = Some impl →
  do r req s =
    let s1 := mkSt (builders s) (hmaps s) (arrays s) (objs s) (clients s)
                   (sent s ++ [(c, req)]) in
    match client_Do impl req with
    | inr err => (Ret (None, Some err), s1)
    | inl resp =>
        match ioutil_ReadAll (Resp_Body resp) with
        | inr err => (Ret (None, Some err), s1)
        | inl bodyBytes =>
            match decodeResp r (Response.mk (Resp_StatusCode resp) (Resp_Header resp)
                                            None None) bodyBytes s1 with
            | (Ret (response, err), s2) => (Ret (Some response, wrap_decode err), s2)
            | (Panic msg, s2) => (Panic msg, s2)
            end
        end
    end.
Proof.
  intros Hb Hc Hi. unfold do. unfold_M. rewrite Hb. simpl. rewrite Hc, Hi. simpl.
  destruct (client_Do impl req) as [resp|e]; [|done].
  destruct (ioutil_ReadAll _) as [bodyBytes|e]; [|done].
  destruct (decodeResp _ _ _ _) as [[[response [e|]]|msg] s2]; done.
Qed.

Lemma Execute_run r s req :
  Request_Request r s = (Ret (req, None), s) →
  Execute r s = do r req s.
Proof. intros HR. unfold Execute, sendRequest, mbind, M_bind. by rewrite HR. Qed.

(** X12: A body that json.Marshal rejects: Request() returns nil and that error,
    and Execute() returns it with no response; no request is built or sent
    and the store is as it was. *)
Theorem marshal_error_aborts (r : addr) (s : St) (b : Request.t) (e : error) :
  builders s !! r = Some b →
  Request.body b ≠ None →
  json_Marshal (objs s) (Request.body b) = inr e →
  Request_Request r s = (Ret (None, Some e), s)
  ∧ Execute r s = (Ret (None, Some e), s).
Proof.
  intros Hb Hbody Hm.
  assert (Request_Request r s = (Ret (None, Some e), s)) as HR.
  { unfold Request_Request. unfold_M. rewrite Hb. simpl.
    destruct (Request.body b); [|done]. by rewrite Hm. }
  split; [done|]. unfold Execute, sendRequest, mbind, M_bind. by rewrite HR.
Qed.

(** X13: A builder without a body whose method or URL http.NewRequest rejects:
    Execute() returns that error with no response, and nothing is sent. *)
Theorem construction_error_aborts (r : addr) (s : St) (b : Request.t) (e : error) :
  builders s !! r = Some b →
  Request.body b = None →
  http_NewRequest (Request.method b) (Request.url b) None = inr e →
  Execute r s = (Ret (None, Some e), s).
Proof.
  intros Hb Hbody Hnew. unfold Execute, sendRequest, mbind, M_bind.
  unfold Request_Request. unfold_M. rewrite Hb. simpl. by rewrite Hbody, Hnew.
Qed.

(** X14: An error of the transport is returned as it is, with no response; the
    request was given to the client once, and nothing is decoded: the
    caller's objects are as they were. *)
Theorem transport_error_returned (r : addr) (s : St) (b : Request.t)
    (req : option http_Request) (c : addr) (impl : httpClient) (e : error) :
  builders s !! r = Some b →
  Request_Request r s = (Ret (req, None), s) →
  Request.client b = Some c →
  clients s !! c = Some impl →
  client_Do impl req = inr e →
  Execute r s =
    (Ret (None, Some e),
     mkSt (builders s) (hmaps s) (arrays s) (objs s) (clients s)
          (sent s ++ [(c, req)])%list).
Proof.
  intros Hb HR Hc Hi Hdo. rewrite (Execute_run r s req HR).
  rewrite (do_run r req s b c impl) by done. cbv zeta. by rewrite Hdo.
Qed.

(** X15: A reply whose body cannot be read to the end: Execute() returns the
    read error and no response at all, so the status and the headers of the
    reply are lost with it, and nothing is decoded whatever shapes are
    declared. *)
Theorem body_read_error_drops_response (r : addr) (s : St) (b : Request.t)
    (req : option http_Request) (c : addr) (impl : httpClient)
    (reply : http_Response) (e : error) :
  builders s !! r = Some b →
  Request_Request r s = (Ret (req, None), s) →
  Request.client b = Some c →
  clients s !! c = Some impl →
  client_Do impl req = inl reply →
  ioutil_ReadAll (Resp_Body reply) = inr e →
  Execute r s =
    (Ret (None, Some e),
     mkSt (builders s) (hmaps s) (arrays s) (objs s) (clients s)
          (sent s ++ [(c, req)])%list).
Proof.
  intros Hb HR Hc Hi Hdo Hread. rewrite (Execute_run r s req HR).
  rewrite (do_run r req s b c impl) by done. cbv zeta. by rewrite Hdo, Hread.
Qed.

(** X16: A builder without a client, as a struct literal without one leaves it:
    Execute() builds the request and then panics on the call of the nil
    client; nothing is sent. *)
Theorem nil_client_panics (r : addr) (s : St) (b : Request.t)
    (req : option http_Request) :
  builders s !! r = Some b →
  Request_Request r s = (Ret (req, None), s) →
  Request.client b = None →
  Execute r s = (Panic nil_deref, s).
Proof.
  intros Hb HR Hc. rewrite (Execute_run r s req HR).
  unfold do. unfold_M. rewrite Hb. simpl. by rewrite Hc.
Qed.

Lemma decodeResp_sent r resp body s : sent (decodeResp r resp body s).2 = sent s.
Proof.
  unfold decodeResp, unmarshal. unfold_M.
  destruct (builders s !! r) as [b|]; simpl; [|done].
  destruct (in_2xx _).
  - destruct (Request.Success b); [|done].
    by destruct (json_Unmarshal _ _ _) as [[o slot] err].
  - destruct (Request.Failure b); [|done].
    by destruct (json_Unmarshal _ _ _) as [[o slot] err].
Qed.

Lemma do_sent_cases r req s :
  sent (do r req s).2 = sent s
  ∨ ∃ c, sent (do r req s).2 = (sent s ++ [(c, req)])%list.
Proof.
  destruct (builders s !! r) as [b|] eqn:Hb;
    [|left; unfold do; unfold_M; by rewrite Hb].
  destruct (Request.client b) as [c|] eqn:Hc;
    [|left; unfold do; unfold_M; rewrite Hb; simpl; by rewrite Hc].
  destruct (clients s !! c) as [impl|] eqn:Hi;
    [|left; unfold do; unfold_M; rewrite Hb; simpl; by rewrite Hc, Hi].
  right. exists c. rewrite (do_run r req s b c impl) by done. cbv zeta.
  destruct (client_Do impl req) as [resp|e]; [|done].
  destruct (ioutil_ReadAll _) as [bodyBytes|e]; [|done].
  pose proof (decodeResp_sent r (Response.mk (Resp_StatusCode resp) (Resp_Header resp)
                                             None None) bodyBytes
                (mkSt (builders s) (hmaps s) (arrays s) (objs s) (clients s)
                      (sent s ++ [(c, req)]))) as Hs.
  by destruct (decodeResp _ _ _ _) as [[[response err]|msg] s2].
Qed.

(** X17: Execute() never gives more than one request to a transport: whatever
    the builder and whatever happens, the record of sent requests is as it
    was or longer by exactly one entry.  Nothing is retried. *)
Theorem Execute_sends_at_most_once (r : addr) (s : St) :
  sent (Execute r s).2 = sent s
  ∨ ∃ c req, sent (Execute r s).2 = (sent s ++ [(c, req)])%list.
Proof.
  unfold Execute, sendRequest, mbind, M_bind.
  pose proof (Request_Request_state r s) as Hst.
  destruct (Request_Request r s) as [[[req [e|]]|msg] s1]; cbn [snd] in *; subst s1;
    [by left| |by left].
  destruct (do_sent_cases r req s) as [H|[c H]]; [by left|right; eauto].
Qed.

(** X10: Whenever Request() returns a request it is the one http.NewRequest
    built from the builder's method, its URL and, when a body is set, the
    bytes json.Marshal gave for it; Request() changes nothing of it but the
    query component, and that only when the query object encodes. *)
Theorem Request_returns_constructed (r : addr) (s : St) (b : Request.t)
    (req : http_Request) (err : option error) (s' : St) :
  builders s !! r = Some b →
  Request_Request r s = (Ret (Some req, err), s') →
  ∃ payload req0,
    http_NewRequest (Request.method b) (Request.url b) payload = inl req0
    ∧ (Request.body b = None ∧ payload = None
       ∨ Request.body b ≠ None
         ∧ ∃ bs, json_Marshal (objs s) (Request.body b) = inl bs ∧ payload = Some bs)
    ∧ err = None
    ∧ match query_Values (objs s) (Request.query b) with
      | inl v => req = mkReq (Req_Method req0)
                             (set_RawQuery (Values_Encode v) (Req_URL req0))
                             (Req_Header req0) (Req_Body req0)
      | inr _ => req = req0
      end.
Proof.
  intros Hb. unfold Request_Request, Request_query. unfold_M. rewrite Hb. simpl.
  destruct (Request.body b) as [x|] eqn:Hbody.
  - destruct (json_Marshal _ _) as [bs|e] eqn:Hm; simpl; [|done].
    destruct (http_NewRequest _ _ (Some bs)) as [req0|e] eqn:Hn; simpl.
    + destruct (query_Values _ _); intros [= <- <- <-];
        exists (Some bs), req0; (split; [done|]); (split; [right; eauto|]); done.
    + destruct (query_Values _ _); done.
  - destruct (http_NewRequest _ _ None) as [req0|e] eqn:Hn; simpl; [|done].
    destruct (query_Values _ _); intros [= <- <- <-];
      exists None, req0; (split; [done|]); (split; [left; eauto|]); done.
Qed.

End Pipeline.

(** ** The further properties on concrete builders *)

Section Instances.
#[local] Existing Instance GoStd.libs.
Import Cases.

Lemma two_headers_wf : wf_store two_headers.
Proof. apply wf_after_calls, wf_empty. Qed.

(** SetHeader("a", "C") on New().AddHeader("A", "B").AddHeader("X-Id", "7") *)
Lemma SetHeader_replaces_witness :
  ∃ s',
    SetHeader 0 "a" "C" two_headers = (Ret 0, s')
    ∧ builders s' = builders two_headers
    ∧ header_content s' (Some 0)
      = <[CanonicalMIMEHeaderKey "a" := ["C"]]> (header_content two_headers (Some 0))
    ∧ (∀ h', h' ≠ 0 →
         header_content s' (Some h') = header_content two_headers (Some h')).
Proof.
  exact (SetHeader_replaces 0 two_headers _ 0 "a" "C" two_headers_wf
           eq_refl eq_refl).
Defined.

(** AddHeader("a", "c").AddHeader("A", "d") on the same builder *)
Lemma AddHeader_accumulates_witness :
  ∃ s',
    add_headers 0 [("a", "c"); ("A", "d")] two_headers = (Ret 0, s')
    ∧ builders s' = builders two_headers
    ∧ values_of (header_content s' (Some 0)) "A"
      = (values_of (header_content two_headers (Some 0)) "A" ++ ["c"; "d"])%list
    ∧ ∀ k, k ≠ "A" →
        header_content s' (Some 0) !! k = header_content two_headers (Some 0) !! k.
Proof.
  apply (AddHeader_accumulates 0 [("a", "c"); ("A", "d")] "A" two_headers
           (Request.mk (Some 0) "GET" "" (Some 0) None None None None) 0);
    [exact two_headers_wf|reflexivity|reflexivity|repeat constructor].
Defined.

(** b2 := b1.New() for the same builder b1 *)
Lemma derived_first_change_isolated_witness :
  ∃ r2 s1 b2 h2,
    Request_New 0 two_headers = (Ret r2, s1)
    ∧ builders s1 !! 0
      = Some (Request.mk (Some 0) "GET" "" (Some 0) None None None None)
    ∧ builders s1 !! r2 = Some b2
    ∧ Request.header b2 = Some h2
    ∧ h2 ≠ 0
    ∧ header_content (AddHeader r2 "A" "z" s1).2 (Some 0) = header_content s1 (Some 0).
Proof.
  destruct (derived_first_change_isolated 0 two_headers
              (Request.mk (Some 0) "GET" "" (Some 0) None None None None) 0
              two_headers_wf eq_refl eq_refl)
    as (r2 & s1 & b2 & h2 & H1 & H2 & H3 & H4 & H5 & H6).
  exists r2, s1, b2, h2.
  exact (conj H1 (conj H2 (conj H3 (conj H4 (conj H5 (proj1 (H6 "A" "z"))))))).
Defined.

(** A builder made by a struct literal, as newMockRequest makes it, has no
    header map. *)
Lemma header_on_nil_map_panics_witness :
  (AddHeader 0 "A" "B" (Scenario.mock 0 None None None)).1
  = Panic "assignment to entry in nil map"
  ∧ (SetHeader 0 "A" "B" (Scenario.mock 0 None None None)).1
    = Panic "assignment to entry in nil map".
Proof.
  pose proof (header_on_nil_map_panics 0 (Scenario.mock 0 None None None) _
                "A" "B" eq_refl eq_refl) as (H1 & H2 & _).
  by split.
Defined.

Lemma object_setters_witness :
  (SetQuery 0 (Some (VPtr 0)) plain_get).1 = Ret 0
  ∧ Request.query <$> builders (SetQuery 0 (Some (VPtr 0)) plain_get).2 !! 0
    = Some (Some (VPtr 0))
  ∧ Request.url <$> builders (SetQuery 0 (Some (VPtr 0)) plain_get).2 !! 0
    = Some "http://example.com".
Proof.
  pose proof (object_setters 0 plain_get _ (Some (VPtr 0)) eq_refl) as (H & _).
  rewrite H. by repeat split.
Defined.

Lemma method_setter_unparseable_witness :
  url_Parse bad_url
  = inr ("parse " +:+ GoStd.quoted bad_url
         +:+ ": net/url: invalid control character in URL")
  ∧ (Post 0 bad_url plain_get).1 = Ret 0
  ∧ Request.method <$> builders (Post 0 bad_url plain_get).2 !! 0 = Some "POST"
  ∧ Request.url <$> builders (Post 0 bad_url plain_get).2 !! 0
    = Some "http://example.com".
Proof.
  split; [reflexivity|].
  pose proof (method_setter_unparseable 0 plain_get _ bad_url _ eq_refl eq_refl)
    as (_ & H & _).
  rewrite H. by repeat split.
Defined.

Lemma marshal_error_aborts_witness :
  Request_Request (L := Doubles.no_marshal) 0 full_builder
  = (Ret (None, Some "json: unsupported type: chan int"), full_builder)
  ∧ Execute (L := Doubles.no_marshal) 0 full_builder
    = (Ret (None, Some "json: unsupported type: chan int"), full_builder).
Proof.
  exact (marshal_error_aborts (L := Doubles.no_marshal) 0 full_builder _ _
           eq_refl ltac:(discriminate) eq_refl).
Defined.

Lemma construction_error_aborts_witness :
  Execute 0 (Scenario.bad_method None None)
  = (Ret (None, Some ("net/http: invalid method " +:+ GoStd.quoted "bad method")),
     Scenario.bad_method None None).
Proof.
  exact (construction_error_aborts 0 (Scenario.bad_method None None) _ _
           eq_refl eq_refl eq_refl).
Defined.

(** The builder of New() has the standard client, which has no network to
    reach here. *)
Lemma transport_error_returned_witness :
  Execute 0 plain_get
  = (Ret (None, Some "dial tcp: network is unreachable"),
     mkSt (builders plain_get) (hmaps plain_get) (arrays plain_get)
          (objs plain_get) (clients plain_get)
          (sent plain_get ++ [(0, Some Scenario.example_request)])%list).
Proof.
  exact (transport_error_returned 0 plain_get _ (Some Scenario.example_request)
           0 _ _ eq_refl eq_refl eq_refl eq_refl eq_refl).
Defined.

Lemma body_read_error_drops_response_witness :
  (Execute (L := Doubles.broken_body) 0 (Scenario.mock 0 None (Some (VPtr 0)) None)).1
  = Ret (None, Some "unexpected EOF")
  ∧ objs (Execute (L := Doubles.broken_body) 0
            (Scenario.mock 0 None (Some (VPtr 0)) None)).2
    = objs (Scenario.mock 0 None (Some (VPtr 0)) None).
Proof.
  rewrite (body_read_error_drops_response (L := Doubles.broken_body) 0
             (Scenario.mock 0 None (Some (VPtr 0)) None) _
             (Some Scenario.example_request) 0 _ _ _
             eq_refl eq_refl eq_refl eq_refl eq_refl eq_refl).
  by split.
Defined.

Lemma nil_client_panics_witness :
  Execute 0 no_client = (Panic nil_deref, no_client).
Proof.
  exact (nil_client_panics 0 no_client _ (Some Scenario.example_request)
           eq_refl eq_refl eq_refl).
Defined.

(** A builder with a body and a query object: the request has the method,
    the marshalled body, and the encoded query in place of a=1. *)
Lemma Request_returns_constructed_witness :
  ∃ req bs,
    Request_Request 0 full_builder = (Ret (Some req, None), full_builder)
    ∧ Req_Method req = "POST"
    ∧ json_Marshal (objs full_builder) (Some (VPtr 0)) = inl bs
    ∧ Req_Body req = Some bs
    ∧ URL_String (Req_URL req) = "http://example.com/p?id=20&name=John".
Proof.
  assert (∃ req, Request_Request 0 full_builder = (Ret (Some req, None), full_builder))
    as [req HR] by (eexists; vm_compute; reflexivity).
  destruct (Request_returns_constructed 0 full_builder _ req None full_builder
              eq_refl HR) as (payload & req0 & Hnew & Hbody & _ & Hreq).
  destruct Hbody as [[Hnone _]|(_ & bs & Hm & ->)]; [discriminate Hnone|].
  exists req, bs. split; [exact HR|].
  vm_compute in Hm. injection Hm as <-.
  vm_compute in Hnew. injection Hnew as <-.
  vm_compute in Hreq. subst req. vm_compute. by repeat split.
Defined.

(** The query object replaces the query a=1 of the stored URL. *)
Lemma Request_query_overwrites_witness :
  ∃ req,
    Request_Request 0 full_builder = (Ret (Some req, None), full_builder)
    ∧ RawQuery (Req_URL req) = "id=20&name=John".
Proof.
  assert (∃ v, query_Values (objs full_builder) (Some (VPtr 1)) = inl v)
    as [v Hv] by (eexists; vm_compute; reflexivity).
  assert (∃ bs, json_Marshal (objs full_builder) (Some (VPtr 0)) = inl bs)
    as [bs Hm] by (eexists; vm_compute; reflexivity).
  assert (∃ req0, http_NewRequest "POST" "http://example.com/p?a=1" (Some bs)
                  = inl req0)
    as [req0 Hn] by (eexists; vm_compute; reflexivity).
  pose proof (Request_query_overwrites 0 full_builder
                (Request.mk (Some 0) "POST" "http://example.com/p?a=1" None
                            (Some (VPtr 1)) (Some (VPtr 0)) None None)
                v (Some bs) req0 eq_refl Hv) as H.
  cbn [Request.body Request.method Request.url] in H.
  specialize (H ltac:(right; split; [discriminate|exists bs; split; [exact Hm|reflexivity]]) Hn).
  eexists. split; [exact H|].
  vm_compute in Hv. injection Hv as <-. vm_compute. reflexivity.
Defined.

Lemma Request_New_derived_witness :
  ∃ r2 s' b2,
    Request_New 0 two_headers = (Ret r2, s')
    ∧ r2 ≠ 0
    ∧ builders s' !! r2 = Some b2
    ∧ Request.header b2 ≠ Some 0
    ∧ header_content s' (Request.header b2) = header_content two_headers (Some 0)
    ∧ Request.client b2 = Some 0.
Proof.
  destruct (Request_New_derived 0 two_headers _ eq_refl)
    as (r2 & s' & b2 & H1 & H2 & H3 & H4 & H5 & H6 & H7 & H8).
  { intros a [= <-]. vm_compute. lia. }
  exists r2, s', b2. by repeat split.
Defined.

End Instances.

(** ** Decoding through pointers into a builder *)

Section AliasingFrame.
Context {L : GoLibs} {J : Aliasing.JsonShapes}.














End AliasingFrame.

Section AliasingCases.
#[local] Existing Instance GoStd.libs.
#[local] Existing Instance Aliasing.reference.



End AliasingCases.

Section Agree.
Context {L : GoLibs} {J : Aliasing.JsonShapes}.

(** On a builder whose shapes are not pointers into a builder, [do] over
    shapes is [do] of the first part. *)
Lemma plain_do_agrees r req s sh b :
  builders s !! r = Some b →
  default Aliasing.unset (sh !! r)
  = (Aliasing.Plain (Request.Success b), Aliasing.Plain (Request.Failure b)) →
  Aliasing.do r req (Aliasing.mkStore s sh)
  = (plain_result (do r req s).1, Aliasing.mkStore (do r req s).2 sh).
Proof.
  intros Hb Hp. unfold Aliasing.do, do, Aliasing.decodeResp, decodeResp,
    Aliasing.unmarshal, unmarshal.
  unfold mbind, Aliasing.AM_bind, M_bind, mret, Aliasing.AM_ret, M_ret,
    Aliasing.lift, Aliasing.get_shapes, Aliasing.get_store, Aliasing.put_shapes,
    loadB, loadC, log_sent, put_objs, get_St.
  cbn [Aliasing.base Aliasing.shapes builders clients objs fst snd plain_result].
  rewrite Hb. cbn [Aliasing.base Aliasing.shapes builders clients objs fst snd].
  destruct (Request.client b) as [c|]; [|done].
  destruct (clients s !! c) as [impl|]; [|done].
  cbn [Aliasing.base Aliasing.shapes builders clients objs fst snd].
  destruct (client_Do impl req) as [reply|e]; [|done].
  destruct (ioutil_ReadAll _) as [bodyBytes|e]; [|done].
  cbn [Aliasing.base Aliasing.shapes builders clients objs fst snd
       Response.StatusCode Aliasing.Response.StatusCode].
  rewrite Hb.
  cbn [Aliasing.base Aliasing.shapes builders clients objs fst snd].
  rewrite Hp. cbn [fst snd Aliasing.is_nil].
  destruct (in_2xx _).
  - destruct (Request.Success b) as [v|]; [|done].
    cbn [Aliasing.base Aliasing.shapes builders clients objs fst snd Aliasing.is_nil].
    rewrite Aliasing.json_plain.
    destruct (json_Unmarshal _ _ _) as [[o slot] [e|]]; done.
  - destruct (Request.Failure b) as [v|]; [|done].
    cbn [Aliasing.base Aliasing.shapes builders clients objs fst snd Aliasing.is_nil].
    rewrite Aliasing.json_plain.
    destruct (json_Unmarshal _ _ _) as [[o slot] [e|]]; done.
Qed.
(** So is Execute(): on such a builder the two parts give the same result,
    the same store, and the shapes are as they were. *)
Lemma plain_Execute_agrees r s sh b :
  builders s !! r = Some b →
  default Aliasing.unset (sh !! r)
  = (Aliasing.Plain (Request.Success b), Aliasing.Plain (Request.Failure b)) →
  Aliasing.Execute r (Aliasing.mkStore s sh)
  = (plain_result (Execute r s).1, Aliasing.mkStore (Execute r s).2 sh).
Proof.
  intros Hb Hp.
  unfold Aliasing.Execute, Execute, Aliasing.sendRequest, sendRequest,
    Aliasing.Request, Aliasing.lift.
  unfold mbind, Aliasing.AM_bind, M_bind.
  cbn [Aliasing.base Aliasing.shapes].
  pose proof (Request_Request_state r s) as Hs.
  destruct (Request_Request r s) as [[[req [e|]]|msg] s1]; cbn in Hs; subst s1;
    [done| |done].
  by apply (plain_do_agrees r req s sh b).
Qed.

End Agree.

(** ** A construction error, with and without a body *)

Section Construction.
Context {L : GoLibs}.


End Construction.

Section ConstructionCases.
#[local] Existing Instance GoStd.libs.



End ConstructionCases.

(** ** A reachable store *)

Section ReachableCases.
#[local] Existing Instance GoStd.libs.

(** After r := New().AddHeader("a", "b"); r2 := r.New().Get(url), the header
    of r2 refers to a well-formed map of the store. *)
Lemma reachable_wf_witness :
  ∃ h m,
    Request.header (Request.mk (Some 0) "GET" "http://example.com" (Some 1)
                               None None None None) = Some h
    ∧ hmaps (after_calls [CallNew; CallAddHeader 0 "a" "b"; CallDerive 0;
                          CallGet 1 "http://example.com"] empty_St) !! h = Some m
    ∧ map_wf (after_calls [CallNew; CallAddHeader 0 "a" "b"; CallDerive 0;
                           CallGet 1 "http://example.com"] empty_St) m.
Proof.
  assert (builders (after_calls [CallNew; CallAddHeader 0 "a" "b"; CallDerive 0;
                                 CallGet 1 "http://example.com"] empty_St) !! 1
          = Some (Request.mk (Some 0) "GET" "http://example.com" (Some 1)
                             None None None None)) as Hb
    by (vm_compute; reflexivity).
  exact (proj2 (reachable_wf [CallNew; CallAddHeader 0 "a" "b"; CallDerive 0;
                              CallGet 1 "http://example.com"]) 1 _ Hb).
Defined.

End ReachableCases.
